(** * A limit-order matching engine: order book, matching, cancellation

    Shallow embedding of the TypeScript sources
      - [src/utils/decimal.ts]          (facade over decimal.js)
      - [src/models/order.ts], [src/models/orderbook.ts], [src/models/trade.ts]
      - [src/validator/orderValidator.ts]
      - [src/services/matchingEngine.ts]
      - [src/services/orderBookService.ts]
    followed by the properties of the engine.

    Conventions of the embedding.
      - Objects that the source mutates in place (price levels inside a
        [Map], books inside the service) are uniquely owned, so mutation is
        modelled by writing the updated value back at its key.
      - [Date.now()] is the only source of non-determinism.  The wall clock
        is a function [now : nat -> Z]; the [n]-th call of [Date.now()] in a
        run reads [now n], and the run state counts the calls made so far.
      - Logging has no effect on the state and is left out. *)

From Stdlib Require Import ZArith QArith Qcanon String List Lia Lqa.
From stdpp Require Import base numbers option list sorting gmap strings.
From Equations Require Import Equations.

Unset Equations With Funext.

Local Open Scope string_scope.
Local Open Scope Z_scope.
Local Open Scope list_scope.

(** ** Decimal values ([src/utils/decimal.ts]) *)

(** Modelled from the spec: the third-party decimal.js arithmetic behind the
    [DecimalValue] facade, as the exact decimal primitive of the data model.
    Every finite decimal is a rational number, and sums, differences and
    comparisons of decimals are those of the rationals, so a value is a
    canonical rational [Qc]; equal values are equal terms.  This is
    decimal.js as long as a sum or difference fits the 20 significant
    digits the facade configures; rounding beyond them is not modelled.
    [toString] renders the canonical form of the value (an injective map on
    values), so the string used as a price-level key is identified with the
    value. *)
Module DecimalValue.
Definition t : Type := Qc.

Definition of_Z (z : Z) : t := Q2Qc (inject_Z z).
Definition ZERO : t := of_Z 0.

Definition plus (a b : t) : t := (a + b)%Qc.
Definition minus (a b : t) : t := (a - b)%Qc.

Definition eq (a b : t) : bool := bool_decide (a = b).
Definition gt (a b : t) : bool := bool_decide (b < a)%Qc.
Definition lt (a b : t) : bool := bool_decide (a < b)%Qc.
Definition gte (a b : t) : bool := bool_decide (b <= a)%Qc.
Definition lte (a b : t) : bool := bool_decide (a <= b)%Qc.
Definition isZero (a : t) : bool := bool_decide (a = ZERO).

(** [static min(a, b) { return a.lt(b) ? a : b; }] *)
Definition min (a b : t) : t := if lt a b then a else b.
Definition max (a b : t) : t := if gt a b then a else b.

Definition toString (a : t) : t := a.
End DecimalValue.

Abbreviation dec := DecimalValue.of_Z.

(** ** Data model ([src/models]) *)

Definition TradingPair : Type := string.

(** A raw command as read from the input document.  The two numeric fields
    are decimal numerals in the source; the record holds the value each
    numeral denotes. *)
Module RawOrder.
Record t : Type := mk {
  type_op : string;
  account_id : string;
  amount : DecimalValue.t;
  order_id : string;
  pair : TradingPair;
  limit_price : DecimalValue.t;
  side : string
}.
End RawOrder.

Module Order.
Record t : Type := mk {
  type_op : string;
  account_id : string;
  amount : DecimalValue.t;
  order_id : string;
  pair : TradingPair;
  limit_price : DecimalValue.t;
  side : string;
  timestamp : Z
}.

(** [order.amount = a] *)
Definition set_amount (o : t) (a : DecimalValue.t) : t :=
  mk (type_op o) (account_id o) a (order_id o) (pair o) (limit_price o)
     (side o) (timestamp o).
End Order.

(** [createOrder(rawOrder, timestamp = Date.now())]: the caller passes the
    clock reading when it leaves the second argument out. *)
Definition createOrder (rawOrder : RawOrder.t) (timestamp : Z) : Order.t :=
  Order.mk (RawOrder.type_op rawOrder) (RawOrder.account_id rawOrder)
           (RawOrder.amount rawOrder) (RawOrder.order_id rawOrder)
           (RawOrder.pair rawOrder) (RawOrder.limit_price rawOrder)
           (RawOrder.side rawOrder) timestamp.

Module OrderBookEntry.
Record t : Type := mk {
  order_id : string;
  account_id : string;
  amount : DecimalValue.t;
  limit_price : DecimalValue.t;
  timestamp : Z
}.

Definition set_amount (e : t) (a : DecimalValue.t) : t :=
  mk (order_id e) (account_id e) a (limit_price e) (timestamp e).
End OrderBookEntry.

Module PriceLevel.
Record t : Type := mk {
  price : DecimalValue.t;
  orders : list OrderBookEntry.t;
  totalVolume : DecimalValue.t
}.
End PriceLevel.

Module OrderBookSide.
Record t : Type := mk {
  priceLevels : gmap DecimalValue.t PriceLevel.t;
  prices : list DecimalValue.t
}.
End OrderBookSide.

Module OrderBook.
Record t : Type := mk {
  pair : TradingPair;
  bids : OrderBookSide.t;
  asks : OrderBookSide.t
}.
End OrderBook.

(** [trade_id] is the decimal rendering of a counter; the record holds the
    number. *)
Module Trade.
Record t : Type := mk {
  trade_id : Z;
  pair : TradingPair;
  maker_order_id : string;
  taker_order_id : string;
  maker_account_id : string;
  taker_account_id : string;
  amount : DecimalValue.t;
  price : DecimalValue.t;
  timestamp : Z
}.
End Trade.

Definition createOrderBookSide : OrderBookSide.t :=
  OrderBookSide.mk ∅ [].

Definition createOrderBook (pair : TradingPair) : OrderBook.t :=
  OrderBook.mk pair createOrderBookSide createOrderBookSide.

Definition getOrderBookSide (orderBook : OrderBook.t) (side : string)
  : OrderBookSide.t :=
  if String.eqb side "BUY" then OrderBook.bids orderBook
  else OrderBook.asks orderBook.

(** Writing a side back into its book: the source mutates the side object
    that [book.bids] or [book.asks] points to. *)
Definition setOrderBookSide (orderBook : OrderBook.t) (side : string)
    (s : OrderBookSide.t) : OrderBook.t :=
  if String.eqb side "BUY"
  then OrderBook.mk (OrderBook.pair orderBook) s (OrderBook.asks orderBook)
  else OrderBook.mk (OrderBook.pair orderBook) (OrderBook.bids orderBook) s.

(** The side an incoming order matches against:
    [order.side === "BUY" ? orderBook.asks : orderBook.bids]. *)
Definition oppositeSideOf (orderBook : OrderBook.t) (side : string)
  : OrderBookSide.t :=
  if String.eqb side "BUY" then OrderBook.asks orderBook
  else OrderBook.bids orderBook.

Definition setOppositeSide (orderBook : OrderBook.t) (side : string)
    (s : OrderBookSide.t) : OrderBook.t :=
  if String.eqb side "BUY"
  then OrderBook.mk (OrderBook.pair orderBook) (OrderBook.bids orderBook) s
  else OrderBook.mk (OrderBook.pair orderBook) s (OrderBook.asks orderBook).

(** Serialized entries and trades carry the same fields with the decimals
    rendered by [toString]. *)
Definition serializeOrderBookEntry (entry : OrderBookEntry.t)
  : string * string * DecimalValue.t * DecimalValue.t * Z :=
  (OrderBookEntry.order_id entry, OrderBookEntry.account_id entry,
   DecimalValue.toString (OrderBookEntry.amount entry),
   DecimalValue.toString (OrderBookEntry.limit_price entry),
   OrderBookEntry.timestamp entry).

(** One side of [serializeOrderBook]: walk [prices], look every price up in
    [priceLevels], and emit the entries of the levels found. *)
Definition serializeSide (s : OrderBookSide.t)
  : list (string * string * DecimalValue.t * DecimalValue.t * Z) :=
  flat_map
    (fun price =>
       match OrderBookSide.priceLevels s !! DecimalValue.toString price with
       | Some priceLevel =>
           map serializeOrderBookEntry (PriceLevel.orders priceLevel)
       | None => []
       end)
    (OrderBookSide.prices s).

Definition serializeOrderBook (orderBook : OrderBook.t) :=
  (OrderBook.pair orderBook,
   (serializeSide (OrderBook.bids orderBook),
    serializeSide (OrderBook.asks orderBook))).

Definition serializeTrade (trade : Trade.t) : Trade.t := trade.

(** ** Arithmetic of decimal values

    Goals about [Qc] are sent to the rationals [Q], where [lra] decides
    them. *)

Lemma Qc_eq_Qeq (a b : Qc) : a = b <-> (this a == this b)%Q.
Proof.
  split; [intros ->; reflexivity | apply Qc_is_canon].
Qed.

Ltac dec_unfold :=
  unfold DecimalValue.min, DecimalValue.max in *;
  unfold DecimalValue.gt, DecimalValue.lt, DecimalValue.gte,
    DecimalValue.lte, DecimalValue.isZero, DecimalValue.eq,
    DecimalValue.plus, DecimalValue.minus, DecimalValue.ZERO,
    DecimalValue.of_Z, DecimalValue.toString, DecimalValue.t in *.

Lemma this_Q2Qc (q : Q) : (this (Q2Qc q) == q)%Q.
Proof. apply Qred_correct. Qed.

Lemma this_plus (a b : Qc) : (this (a + b)%Qc == this a + this b)%Q.
Proof. apply Qred_correct. Qed.

Lemma this_opp (a : Qc) : (this (- a)%Qc == - this a)%Q.
Proof. apply Qred_correct. Qed.

Lemma this_minus (a b : Qc) : (this (a - b)%Qc == this a - this b)%Q.
Proof. unfold Qcminus. rewrite this_plus, this_opp. reflexivity. Qed.

Ltac qc_push :=
  repeat match goal with
  | |- context [this (Qcplus ?a ?b)] => setoid_rewrite (this_plus a b)
  | |- context [this (Qcminus ?a ?b)] => setoid_rewrite (this_minus a b)
  | |- context [this (Qcopp ?a)] => setoid_rewrite (this_opp a)
  | |- context [this (Q2Qc ?q)] => setoid_rewrite (this_Q2Qc q)
  | H : context [this (Qcplus ?a ?b)] |- _ =>
      setoid_rewrite (this_plus a b) in H
  | H : context [this (Qcminus ?a ?b)] |- _ =>
      setoid_rewrite (this_minus a b) in H
  | H : context [this (Qcopp ?a)] |- _ => setoid_rewrite (this_opp a) in H
  | H : context [this (Q2Qc ?q)] |- _ => setoid_rewrite (this_Q2Qc q) in H
  end.

Ltac qc_lra :=
  dec_unfold;
  rewrite ?Qc_eq_Qeq in *;
  unfold Qclt, Qcle in *;
  qc_push;
  unfold inject_Z in *;
  lra.

(** Case analysis on every comparison of decimals in sight. *)
Ltac dec_cases :=
  dec_unfold;
  repeat (case_bool_decide; simpl in *; try discriminate).

(** ** Loops

    A [while (cond) { body }] loop of the source, as a total function: the
    loop is given with a measure that every iteration decreases. *)

Definition inspect {A : Type} (a : A) : {b : A | a = b} := exist _ a eq_refl.

Section While.
Context {S : Type} (cond : S -> bool) (body : S -> S) (measure : S -> nat).
Hypothesis body_decreases :
  forall s, cond s = true -> (measure (body s) < measure s)%nat.

Equations while (s : S) : S by wf (measure s) lt :=
  while s with inspect (cond s) := {
    | exist _ true _ => while (body s)
    | exist _ false _ => s }.

Lemma while_unroll s : while s = if cond s then while (body s) else s.
Proof.
  funelim (while s).
  - rewrite e. reflexivity.
  - rewrite e. reflexivity.
Qed.

(** On exit the loop condition is false. *)
Lemma while_exit s : cond (while s) = false.
Proof.
  funelim (while s); [assumption |].
  exact e.
Qed.

(** The rule for loop invariants. *)
Lemma while_invariant (P : S -> Prop) :
  (forall s, cond s = true -> P s -> P (body s)) ->
  forall s, P s -> P (while s).
Proof.
  intros Hstep s. remember (measure s) as n eqn:Hn. revert s Hn.
  induction n as [n IH] using lt_wf_ind. intros s -> HP.
  rewrite while_unroll. destruct (cond s) eqn:Hc; [| exact HP].
  eapply IH; [apply body_decreases, Hc | reflexivity |].
  apply Hstep; assumption.
Qed.
End While.

(** ** The matching engine ([src/services/matchingEngine.ts]) *)

Module MatchingEngine.
Record t : Type := mk { nextTradeId : Z }.
End MatchingEngine.

Section Engine.
(** The wall clock: [now n] is what the [n]-th call of [Date.now()]
    returns. *)
Variable now : nat -> Z.

(** *** [matchAtPriceLevel] *)

(** What the loop of [matchAtPriceLevel] reads and writes: the taker
    ([order.amount] is reassigned), the level ([orders] and [totalVolume]
    are mutated), the local [trades], the engine's [nextTradeId], and the
    number of clock readings made so far. *)
Record FillState : Type := mkFill {
  fs_order : Order.t;
  fs_level : PriceLevel.t;
  fs_trades : list Trade.t;
  fs_engine : MatchingEngine.t;
  fs_clock : nat
}.

(** [order.amount.gt(ZERO) && priceLevel.orders.length > 0] *)
Definition fill_cond (s : FillState) : bool :=
  DecimalValue.gt (Order.amount (fs_order s)) DecimalValue.ZERO
  && bool_decide (0 < length (PriceLevel.orders (fs_level s)))%nat.

Definition fill_body (pair : TradingPair) (s : FillState) : FillState :=
  match PriceLevel.orders (fs_level s) with
  | [] => s
  | matchOrder :: rest =>
      let order := fs_order s in
      let matchAmount :=
        DecimalValue.min (Order.amount order)
                         (OrderBookEntry.amount matchOrder) in
      let order' :=
        Order.set_amount order
          (DecimalValue.minus (Order.amount order) matchAmount) in
      let matchOrder' :=
        OrderBookEntry.set_amount matchOrder
          (DecimalValue.minus (OrderBookEntry.amount matchOrder)
                              matchAmount) in
      let totalVolume' :=
        DecimalValue.minus (PriceLevel.totalVolume (fs_level s))
                           matchAmount in
      let trade :=
        Trade.mk (MatchingEngine.nextTradeId (fs_engine s))
                 pair
                 (OrderBookEntry.order_id matchOrder')
                 (Order.order_id order')
                 (OrderBookEntry.account_id matchOrder')
                 (Order.account_id order')
                 matchAmount
                 (PriceLevel.price (fs_level s))
                 (now (fs_clock s)) in
      let orders' :=
        if DecimalValue.isZero (OrderBookEntry.amount matchOrder')
           || DecimalValue.lt (OrderBookEntry.amount matchOrder')
                              DecimalValue.ZERO
        then rest                       (* priceLevel.orders.shift() *)
        else matchOrder' :: rest in
      mkFill order'
             (PriceLevel.mk (PriceLevel.price (fs_level s)) orders'
                            totalVolume')
             (fs_trades s ++ [trade])
             (MatchingEngine.mk
                (MatchingEngine.nextTradeId (fs_engine s) + 1))
             (S (fs_clock s))
  end.

Definition fill_measure (s : FillState) : nat :=
  2 * length (PriceLevel.orders (fs_level s))
  + (if DecimalValue.gt (Order.amount (fs_order s)) DecimalValue.ZERO
     then 1 else 0).

(** Every iteration removes the head of the queue or uses the taker up. *)
Lemma fill_body_decreases pair s :
  fill_cond s = true -> (fill_measure (fill_body pair s) < fill_measure s)%nat.
Proof.
  unfold fill_cond, fill_measure, fill_body.
  destruct s as [o [p [|m rest] tv] ts e c]; simpl.
  - rewrite andb_false_r. discriminate.
  - intros Hc. apply andb_prop in Hc as [Hgt _]. rewrite Hgt.
    destruct (DecimalValue.isZero _ || DecimalValue.lt _ _) eqn:Hsh; simpl.
    + destruct (DecimalValue.gt (DecimalValue.minus _ _) _); lia.
    + apply orb_false_elim in Hsh as [Hz Hlt].
      destruct (DecimalValue.gt (DecimalValue.minus _ _) _) eqn:Hgt';
        [exfalso | lia].
      revert Hgt Hz Hlt Hgt'. dec_cases; intros; qc_lra.
Qed.

Definition matchAtPriceLevel_loop (pair : TradingPair)
  : FillState -> FillState :=
  while fill_cond (fill_body pair) fill_measure (fill_body_decreases pair).

(** [matchAtPriceLevel(order, priceLevel, pair)]: the trades it returns,
    together with what it leaves in [order], [priceLevel], the engine and
    the clock. *)
Definition matchAtPriceLevel (order : Order.t) (priceLevel : PriceLevel.t)
    (pair : TradingPair) (engine : MatchingEngine.t) (clock : nat)
  : FillState :=
  matchAtPriceLevel_loop pair (mkFill order priceLevel [] engine clock).

Lemma matchAtPriceLevel_exit order priceLevel pair engine clock :
  fill_cond (matchAtPriceLevel order priceLevel pair engine clock) = false.
Proof. apply while_exit. Qed.

(** *** [matchOrder] *)

(** What the loop of [matchOrder] reads and writes: [remainingOrder], the
    [priceLevels] map of the opposite side, the local copy
    [pricesToMatch], the local [trades], the engine and the clock; and
    whether the loop was left by [break]. *)
Record MatchState : Type := mkMatch {
  ms_remainingOrder : Order.t;
  ms_priceLevels : gmap DecimalValue.t PriceLevel.t;
  ms_pricesToMatch : list DecimalValue.t;
  ms_trades : list Trade.t;
  ms_engine : MatchingEngine.t;
  ms_clock : nat;
  ms_break : bool
}.

(** [remainingOrder.amount.gt(ZERO) && pricesToMatch.length > 0], while
    no [break] was taken. *)
Definition match_cond (s : MatchState) : bool :=
  negb (ms_break s)
  && (DecimalValue.gt (Order.amount (ms_remainingOrder s)) DecimalValue.ZERO
      && bool_decide (0 < length (ms_pricesToMatch s))%nat).

Definition match_body (order : Order.t) (pair : TradingPair)
    (s : MatchState) : MatchState :=
  match ms_pricesToMatch s with
  | [] => s
  | currentPrice :: shifted =>
      let priceIsCompatible :=
        (String.eqb (Order.side order) "BUY"
         && DecimalValue.gte (Order.limit_price order) currentPrice)
        || (String.eqb (Order.side order) "SELL"
            && DecimalValue.lte (Order.limit_price order) currentPrice) in
      if negb priceIsCompatible then
        (* break *)
        mkMatch (ms_remainingOrder s) (ms_priceLevels s)
                (ms_pricesToMatch s) (ms_trades s) (ms_engine s)
                (ms_clock s) true
      else
        let key := DecimalValue.toString currentPrice in
        match ms_priceLevels s !! key with
        | None =>
            (* pricesToMatch.shift(); continue *)
            mkMatch (ms_remainingOrder s) (ms_priceLevels s) shifted
                    (ms_trades s) (ms_engine s) (ms_clock s) false
        | Some priceLevel =>
            if bool_decide (length (PriceLevel.orders priceLevel) = 0%nat)
            then
              mkMatch (ms_remainingOrder s) (ms_priceLevels s) shifted
                      (ms_trades s) (ms_engine s) (ms_clock s) false
            else
              let r :=
                matchAtPriceLevel (ms_remainingOrder s) priceLevel pair
                                  (ms_engine s) (ms_clock s) in
              let trades' := ms_trades s ++ fs_trades r in
              if bool_decide
                   (length (PriceLevel.orders (fs_level r)) = 0%nat)
              then
                mkMatch (fs_order r) (delete key (ms_priceLevels s))
                        shifted trades' (fs_engine r) (fs_clock r) false
              else
                mkMatch (fs_order r)
                        (<[key := fs_level r]> (ms_priceLevels s))
                        (ms_pricesToMatch s) trades' (fs_engine r)
                        (fs_clock r) false
        end
  end.

Definition match_measure (s : MatchState) : nat :=
  2 * length (ms_pricesToMatch s)
  + (if negb (ms_break s)
        && DecimalValue.gt (Order.amount (ms_remainingOrder s))
                           DecimalValue.ZERO
     then 1 else 0).

Lemma match_body_decreases order pair s :
  match_cond s = true ->
  (match_measure (match_body order pair s) < match_measure s)%nat.
Proof.
  unfold match_cond, match_measure, match_body.
  destruct s as [o lv [|p ps] ts e c b]; simpl.
  - rewrite !andb_false_r. discriminate.
  - intros Hc. apply andb_prop in Hc as [Hb Hc].
    apply andb_prop in Hc as [Hgt _]. rewrite Hb, Hgt. simpl.
    destruct (negb (_ || _)); simpl; [lia |].
    destruct (lv !! _) as [lvl|]; simpl; rewrite ?Hgt; [| lia].
    case_bool_decide; simpl; rewrite ?Hgt; [lia |].
    case_bool_decide as Hlen; simpl.
    + destruct (DecimalValue.gt (Order.amount (fs_order _)) _); lia.
    + pose proof (matchAtPriceLevel_exit o lvl pair e c) as Hex.
      unfold fill_cond in Hex. apply andb_false_iff in Hex as [-> | Hex];
        [lia |].
      apply bool_decide_eq_false in Hex. lia.
Qed.

Definition matchOrder_loop (order : Order.t) (pair : TradingPair)
  : MatchState -> MatchState :=
  while match_cond (match_body order pair) match_measure
        (match_body_decreases order pair).

(** [matchOrder(order, orderBook)].  The source returns [trades] and
    leaves its effects in the book, the engine and the clock; the model
    returns them together.  [remainingOrder] is a local of the source: it
    is part of the result only so that theorems can speak about it. *)
Record MatchResult : Type := mkResult {
  mr_trades : list Trade.t;
  mr_orderBook : OrderBook.t;
  mr_engine : MatchingEngine.t;
  mr_clock : nat;
  mr_remainingOrder : Order.t
}.

Definition matchOrder (order : Order.t) (orderBook : OrderBook.t)
    (engine : MatchingEngine.t) (clock : nat) : MatchResult :=
  let oppositeSide := oppositeSideOf orderBook (Order.side order) in
  if bool_decide (length (OrderBookSide.prices oppositeSide) = 0%nat) then
    mkResult [] orderBook engine clock order
  else
    let s :=
      matchOrder_loop order (OrderBook.pair orderBook)
        (mkMatch order                              (* { ...order } *)
                 (OrderBookSide.priceLevels oppositeSide)
                 (OrderBookSide.prices oppositeSide) (* [...prices] *)
                 [] engine clock false) in
    mkResult (ms_trades s)
             (setOppositeSide orderBook (Order.side order)
                (OrderBookSide.mk (ms_priceLevels s)
                                  (OrderBookSide.prices oppositeSide)))
             (ms_engine s) (ms_clock s) (ms_remainingOrder s).

(** *** [addToOrderBook] *)

(** [side.prices.sort(cmp)]: descending for BUY, ascending otherwise. *)
Definition sortPrices (side : string) (prices : list DecimalValue.t)
  : list DecimalValue.t :=
  if String.eqb side "BUY"
  then merge_sort (flip Qcle) prices
  else merge_sort Qcle prices.

Definition addToOrderBook (order : Order.t) (orderBook : OrderBook.t)
  : OrderBook.t :=
  let side := getOrderBookSide orderBook (Order.side order) in
  let priceStr := DecimalValue.toString (Order.limit_price order) in
  let side1 :=
    match OrderBookSide.priceLevels side !! priceStr with
    | Some _ => side
    | None =>
        OrderBookSide.mk
          (<[priceStr :=
               PriceLevel.mk (Order.limit_price order) []
                             DecimalValue.ZERO]>
             (OrderBookSide.priceLevels side))
          (sortPrices (Order.side order)
             (OrderBookSide.prices side ++ [Order.limit_price order]))
    end in
  let entry :=
    OrderBookEntry.mk (Order.order_id order) (Order.account_id order)
                      (Order.amount order) (Order.limit_price order)
                      (Order.timestamp order) in
  let side2 :=
    match OrderBookSide.priceLevels side1 !! priceStr with
    | Some priceLevel =>
        OrderBookSide.mk
          (<[priceStr :=
               PriceLevel.mk (PriceLevel.price priceLevel)
                 (PriceLevel.orders priceLevel ++ [entry])
                 (DecimalValue.plus (PriceLevel.totalVolume priceLevel)
                                    (Order.amount order))]>
             (OrderBookSide.priceLevels side1))
          (OrderBookSide.prices side1)
    | None => side1   (* not reached: the level was just ensured *)
    end in
  setOrderBookSide orderBook (Order.side order) side2.

(** *** [removeFromOrderBook] *)

(** [arr.findIndex(p)], with [None] for [-1]. *)
Definition findIndex {A : Type} (p : A -> bool) (l : list A) : option nat :=
  fst <$> list_find (fun x => p x = true) l.

(** [arr.splice(i, 1)] *)
Definition splice1 {A : Type} (i : nat) (l : list A) : list A :=
  take i l ++ drop (S i) l.

Definition removeFromOrderBook (order : Order.t) (orderBook : OrderBook.t)
  : bool * OrderBook.t :=
  let side := getOrderBookSide orderBook (Order.side order) in
  let priceStr := DecimalValue.toString (Order.limit_price order) in
  match OrderBookSide.priceLevels side !! priceStr with
  | None => (false, orderBook)
  | Some priceLevel =>
      match findIndex
              (fun o => String.eqb (OrderBookEntry.order_id o)
                                   (Order.order_id order))
              (PriceLevel.orders priceLevel) with
      | None => (false, orderBook)
      | Some orderIndex =>
          match PriceLevel.orders priceLevel !! orderIndex with
          | None => (false, orderBook)  (* not reached: the index is in range *)
          | Some orderToRemove =>
              let orders' :=
                splice1 orderIndex (PriceLevel.orders priceLevel) in
              let priceLevel' :=
                PriceLevel.mk (PriceLevel.price priceLevel) orders'
                  (DecimalValue.minus (PriceLevel.totalVolume priceLevel)
                     (OrderBookEntry.amount orderToRemove)) in
              let side' :=
                if bool_decide (length orders' = 0%nat) then
                  OrderBookSide.mk
                    (delete priceStr (OrderBookSide.priceLevels side))
                    (match findIndex
                             (fun p =>
                                DecimalValue.eq (DecimalValue.toString p)
                                                priceStr)
                             (OrderBookSide.prices side) with
                     | Some priceIndex =>
                         splice1 priceIndex (OrderBookSide.prices side)
                     | None => OrderBookSide.prices side
                     end)
                else
                  OrderBookSide.mk
                    (<[priceStr := priceLevel']>
                       (OrderBookSide.priceLevels side))
                    (OrderBookSide.prices side) in
              (true, setOrderBookSide orderBook (Order.side order) side')
          end
      end
  end.

Definition getBestBidPrice (orderBook : OrderBook.t)
  : option DecimalValue.t :=
  head (OrderBookSide.prices (OrderBook.bids orderBook)).

Definition getBestAskPrice (orderBook : OrderBook.t)
  : option DecimalValue.t :=
  head (OrderBookSide.prices (OrderBook.asks orderBook)).

(** [getSpread(orderBook)]: [null] when a side has no price.  A
    [DecimalValue] is an object, so [!bestBid] tests for [null] only. *)
Definition getSpread (orderBook : OrderBook.t) : option DecimalValue.t :=
  match getBestBidPrice orderBook, getBestAskPrice orderBook with
  | Some bestBid, Some bestAsk => Some (DecimalValue.minus bestAsk bestBid)
  | _, _ => None
  end.
End Engine.

(** ** The validator ([src/validator/orderValidator.ts]) *)

(** The errors of [src/utils/error.ts] that the service can throw.  A
    message is kept to its fixed part, without the interpolated fields. *)
Inductive Error : Type :=
| ValidationError (message : string)
| OrderProcessingError (message : string).

(** [!order[field]] for a string field: the empty string is falsy.  The two
    numeric fields hold numerals, which are never empty. *)
Definition missing (field : string) : bool := String.eqb field "".

(** [str.includes(sub)] *)
Definition includes (sub str : string) : bool :=
  match String.index 0 sub str with
  | Some _ => true
  | None => false
  end.

(** [validateOrder(order)]: [Some e] when it throws [e], [None] when it
    returns.  [parseFloat(s) <= 0] on a numeral [s] is the sign test of the
    value it denotes. *)
Definition validateOrder (order : RawOrder.t) : option Error :=
  let missingFields :=
    filter (fun f => missing (snd f) = true)
      [("type_op", RawOrder.type_op order);
       ("account_id", RawOrder.account_id order);
       ("order_id", RawOrder.order_id order);
       ("pair", RawOrder.pair order);
       ("side", RawOrder.side order)] in
  if bool_decide (0 < length missingFields)%nat then
    Some (ValidationError "Order is missing required fields")
  else if negb (String.eqb (RawOrder.side order) "BUY")
          && negb (String.eqb (RawOrder.side order) "SELL") then
    Some (ValidationError "Invalid order side")
  else if DecimalValue.lte (RawOrder.amount order) DecimalValue.ZERO then
    Some (ValidationError "Invalid order amount")
  else if DecimalValue.lte (RawOrder.limit_price order) DecimalValue.ZERO then
    Some (ValidationError "Invalid order price")
  else if negb (includes "/" (RawOrder.pair order)) then
    Some (ValidationError "Invalid trading pair format")
  else None.

(** [validateOrders(orders)]: the [for] loop throws the error of the first
    order that [validateOrder] rejects. *)
Fixpoint validateOrders (orders : list RawOrder.t) : option Error :=
  match orders with
  | [] => None
  | order :: rest =>
      match validateOrder order with
      | Some e => Some e
      | None => validateOrders rest
      end
  end.

(** ** The order book service ([src/services/orderBookService.ts]) *)

(** [Map<TradingPair, OrderBook>].  The service iterates over this map when
    it serializes the books, so the model keeps the insertion order: an
    association list in which [set] overwrites in place or appends. *)
Fixpoint Map_get {V : Type} (k : string) (m : list (string * V)) : option V :=
  match m with
  | [] => None
  | (k', v) :: rest => if String.eqb k' k then Some v else Map_get k rest
  end.

Definition Map_has {V : Type} (k : string) (m : list (string * V)) : bool :=
  match Map_get k m with Some _ => true | None => false end.

Fixpoint Map_set {V : Type} (k : string) (v : V) (m : list (string * V))
  : list (string * V) :=
  match m with
  | [] => [(k, v)]
  | (k', v') :: rest =>
      if String.eqb k' k then (k, v) :: rest
      else (k', v') :: Map_set k v rest
  end.

Module OrderBookService.
Record t : Type := mk {
  orderBooks : list (TradingPair * OrderBook.t);
  matchingEngine : MatchingEngine.t;
  trades : list Trade.t
}.
End OrderBookService.

(** A run: the service and the number of clock readings made so far. *)
Record Run : Type := mkRun {
  service : OrderBookService.t;
  clock : nat
}.

(** [new OrderBookService()], at the start of a run. *)
Definition newService : OrderBookService.t :=
  OrderBookService.mk [] (MatchingEngine.mk 1) [].

Definition fresh : Run := mkRun newService 0.

Section Service.
Variable now : nat -> Z.

Definition handleCreateOrder (st : Run) (order : Order.t)
    (orderBook : OrderBook.t) : Run :=
  let svc := service st in
  let r :=
    matchOrder now order orderBook
               (OrderBookService.matchingEngine svc) (clock st) in
  let trades' := OrderBookService.trades svc ++ mr_trades r in
  let orderBook' :=
    if DecimalValue.gt (Order.amount order) DecimalValue.ZERO
    then addToOrderBook order (mr_orderBook r)
    else mr_orderBook r in
  mkRun (OrderBookService.mk
           (Map_set (Order.pair order) orderBook'
                    (OrderBookService.orderBooks svc))
           (mr_engine r) trades')
        (mr_clock r).

Definition handleDeleteOrder (st : Run) (order : Order.t)
    (orderBook : OrderBook.t) : Run :=
  let svc := service st in
  let '(removed, orderBook') := removeFromOrderBook order orderBook in
  mkRun (OrderBookService.mk
           (Map_set (Order.pair order) orderBook'
                    (OrderBookService.orderBooks svc))
           (OrderBookService.matchingEngine svc)
           (OrderBookService.trades svc))
        (clock st).

Definition processOrder (st : Run) (order : Order.t) : Run :=
  let svc := service st in
  let orderBooks1 :=
    if Map_has (Order.pair order) (OrderBookService.orderBooks svc)
    then OrderBookService.orderBooks svc
    else Map_set (Order.pair order) (createOrderBook (Order.pair order))
                 (OrderBookService.orderBooks svc) in
  let st1 :=
    mkRun (OrderBookService.mk orderBooks1
             (OrderBookService.matchingEngine svc)
             (OrderBookService.trades svc))
          (clock st) in
  match Map_get (Order.pair order) orderBooks1 with
  | None => st1               (* not reached: the book was just ensured *)
  | Some orderBook =>
      if String.eqb (Order.type_op order) "CREATE" then
        handleCreateOrder st1 order orderBook
      else if String.eqb (Order.type_op order) "DELETE" then
        handleDeleteOrder st1 order orderBook
      else st1
  end.

(** [processRawOrder(rawOrder)]: the state it leaves, and the error it
    throws if any.  Validation comes first, so a rejected command leaves
    the state as it was; [createOrder(rawOrder)] reads the clock. *)
Definition processRawOrder (st : Run) (rawOrder : RawOrder.t)
  : Run * option Error :=
  match validateOrder rawOrder with
  | Some e => (st, Some e)
  | None =>
      let order := createOrder rawOrder (now (clock st)) in
      (processOrder (mkRun (service st) (S (clock st))) order, None)
  end.

(** [processRawOrders(rawOrders)]: the [for] loop stops at the first
    command that throws. *)
Fixpoint processRawOrders (st : Run) (rawOrders : list RawOrder.t)
  : Run * option Error :=
  match rawOrders with
  | [] => (st, None)
  | rawOrder :: rest =>
      match processRawOrder st rawOrder with
      | (st', None) => processRawOrders st' rest
      | (st', Some e) => (st', Some e)
      end
  end.
End Service.

Definition getSerializedOrderBooks (svc : OrderBookService.t) :=
  map (fun kv => serializeOrderBook (snd kv))
      (OrderBookService.orderBooks svc).

Definition getSerializedTrades (svc : OrderBookService.t) : list Trade.t :=
  map serializeTrade (OrderBookService.trades svc).

(** The [bidCount] and [askCount] of [getMarketStatistics]:
    [side.prices.reduce((count, price) => count + (level ? level.orders.length : 0), 0)]. *)
Definition countOrders (s : OrderBookSide.t) : nat :=
  foldl
    (fun count price =>
       (count
        + match OrderBookSide.priceLevels s !! DecimalValue.toString price with
          | Some priceLevel => length (PriceLevel.orders priceLevel)
          | None => 0
          end)%nat)
    0%nat (OrderBookSide.prices s).

Module MarketStatistics.
Record t : Type := mk {
  bestBid : option DecimalValue.t;
  bestAsk : option DecimalValue.t;
  spread : option DecimalValue.t;
  bidCount : nat;
  askCount : nat
}.
End MarketStatistics.

(** [getMarketStatistics()]: one record per book, in the order of the map. *)
Definition getMarketStatistics (svc : OrderBookService.t)
  : list (TradingPair * MarketStatistics.t) :=
  map (fun kv =>
         let orderBook := snd kv in
         (fst kv,
          MarketStatistics.mk
            (getBestBidPrice orderBook) (getBestAskPrice orderBook)
            (getSpread orderBook)
            (countOrders (OrderBook.bids orderBook))
            (countOrders (OrderBook.asks orderBook))))
      (OrderBookService.orderBooks svc).

(** The two output documents of a run that starts from a fresh service. *)
Definition outputs (now : nat -> Z) (rawOrders : list RawOrder.t) :=
  let st := fst (processRawOrders now fresh rawOrders) in
  (getSerializedOrderBooks (service st), getSerializedTrades (service st)).

(** * Vocabulary of the properties *)

(** ** Views used in the statements *)

(** A resting entry without its timestamp: id, amount, price. *)
Definition entryView (e : string * string * DecimalValue.t * DecimalValue.t * Z)
  : string * DecimalValue.t * DecimalValue.t :=
  let '(order_id, _, amount, limit_price, _) := e in
  (order_id, amount, limit_price).

(** A trade as the scenarios write it: maker, amount, price. *)
Definition tradeView (t : Trade.t) : string * DecimalValue.t * DecimalValue.t :=
  (Trade.maker_order_id t, Trade.amount t, Trade.price t).

Definition cmd (type_op account_id order_id side : string) (amount price : Z)
  : RawOrder.t :=
  RawOrder.mk type_op account_id (dec amount) order_id "BTC/USDC"
              (dec price) side.

(** The book of the pair ["BTC/USDC"] after a run, if there is one. *)
Definition bookAfter (now : nat -> Z) (rawOrders : list RawOrder.t)
  : option OrderBook.t :=
  Map_get "BTC/USDC"
    (OrderBookService.orderBooks
       (service (fst (processRawOrders now fresh rawOrders)))).

(** The first two commands of the repository's integration test: a resting
    BUY of 10 at 50000 and a SELL of 5 at the same price; and a SELL that
    takes the whole BUY. *)
Definition buy10 : RawOrder.t := cmd "CREATE" "1" "1" "BUY" 10 50000.
Definition sell5 : RawOrder.t := cmd "CREATE" "2" "2" "SELL" 5 50000.
Definition sell10 : RawOrder.t := cmd "CREATE" "2" "2" "SELL" 10 50000.

(** A resting entry for worked examples. *)
Definition entry (order_id : string) (amount price : Z) : OrderBookEntry.t :=
  OrderBookEntry.mk order_id "acct" (dec amount) (dec price) 0.

(** ** Removal *)

(** The prices without the first occurrence of [p]. *)
Fixpoint removeFirst (p : DecimalValue.t) (l : list DecimalValue.t)
  : list DecimalValue.t :=
  match l with
  | [] => []
  | x :: rest => if decide (x = p) then rest else x :: removeFirst p rest
  end.

(** The entry a DELETE command designates, found the way
    [removeFromOrderBook] finds it. *)
Definition orderToRemove (order : Order.t) (orderBook : OrderBook.t)
  : option OrderBookEntry.t :=
  match OrderBookSide.priceLevels
          (getOrderBookSide orderBook (Order.side order))
        !! DecimalValue.toString (Order.limit_price order) with
  | Some priceLevel =>
      snd <$> list_find
                (fun o => OrderBookEntry.order_id o = Order.order_id order)
                (PriceLevel.orders priceLevel)
  | None => None
  end.


(** ** Positive resting amounts *)

(** A property of every book of the service map. *)
Definition Map_Forall {V : Type} (P : V -> Prop) (m : list (string * V))
  : Prop :=
  Forall (fun kv => P (snd kv)) m.

Definition positive_level (l : PriceLevel.t) : Prop :=
  Forall (fun e => (0 < OrderBookEntry.amount e)%Qc) (PriceLevel.orders l).

Definition positive_levels (m : gmap DecimalValue.t PriceLevel.t) : Prop :=
  map_Forall (fun _ l => positive_level l) m.

Definition positive_side (s : OrderBookSide.t) : Prop :=
  positive_levels (OrderBookSide.priceLevels s).

Definition positive_book (b : OrderBook.t) : Prop :=
  positive_side (OrderBook.bids b) /\ positive_side (OrderBook.asks b).

Definition positive_service (svc : OrderBookService.t) : Prop :=
  Map_Forall positive_book (OrderBookService.orderBooks svc).

(** ** Volumes *)

Definition sumQc (l : list Qc) : Qc :=
  foldr Qcplus 0%Qc l.

(** The volume resting in a level is the sum of the amounts of its entries
    (not the [totalVolume] field). *)
Definition level_volume (l : PriceLevel.t) : Qc :=
  sumQc (map OrderBookEntry.amount (PriceLevel.orders l)).






(** ** Erasure of timestamps *)

(** Erasing the timestamps: every [timestamp] field is set to 0. *)
Definition erase_order (o : Order.t) : Order.t :=
  Order.mk (Order.type_op o) (Order.account_id o) (Order.amount o)
           (Order.order_id o) (Order.pair o) (Order.limit_price o)
           (Order.side o) 0.

Definition erase_entry (e : OrderBookEntry.t) : OrderBookEntry.t :=
  OrderBookEntry.mk (OrderBookEntry.order_id e) (OrderBookEntry.account_id e)
                    (OrderBookEntry.amount e) (OrderBookEntry.limit_price e) 0.

Definition erase_level (l : PriceLevel.t) : PriceLevel.t :=
  PriceLevel.mk (PriceLevel.price l) (map erase_entry (PriceLevel.orders l))
                (PriceLevel.totalVolume l).

Definition erase_side (s : OrderBookSide.t) : OrderBookSide.t :=
  OrderBookSide.mk (erase_level <$> OrderBookSide.priceLevels s)
                   (OrderBookSide.prices s).

Definition erase_book (b : OrderBook.t) : OrderBook.t :=
  OrderBook.mk (OrderBook.pair b) (erase_side (OrderBook.bids b))
               (erase_side (OrderBook.asks b)).

Definition erase_books (m : list (TradingPair * OrderBook.t))
  : list (TradingPair * OrderBook.t) :=
  map (fun kv => (fst kv, erase_book (snd kv))) m.

Definition erase_trade (t : Trade.t) : Trade.t :=
  Trade.mk (Trade.trade_id t) (Trade.pair t) (Trade.maker_order_id t)
           (Trade.taker_order_id t) (Trade.maker_account_id t)
           (Trade.taker_account_id t) (Trade.amount t) (Trade.price t) 0.

Definition erase_service (svc : OrderBookService.t) : OrderBookService.t :=
  OrderBookService.mk
    (map (fun kv => (fst kv, erase_book (snd kv)))
         (OrderBookService.orderBooks svc))
    (OrderBookService.matchingEngine svc)
    (map erase_trade (OrderBookService.trades svc)).

Definition erase_run (st : Run) : Run :=
  mkRun (erase_service (service st)) (clock st).

Definition erase_fill (s : FillState) : FillState :=
  mkFill (erase_order (fs_order s)) (erase_level (fs_level s))
         (map erase_trade (fs_trades s)) (fs_engine s) (fs_clock s).

Definition erase_match (s : MatchState) : MatchState :=
  mkMatch (erase_order (ms_remainingOrder s))
          (erase_level <$> ms_priceLevels s) (ms_pricesToMatch s)
          (map erase_trade (ms_trades s)) (ms_engine s) (ms_clock s)
          (ms_break s).

Definition erase_result (r : MatchResult) : MatchResult :=
  mkResult (map erase_trade (mr_trades r)) (erase_book (mr_orderBook r))
           (mr_engine r) (mr_clock r) (erase_order (mr_remainingOrder r)).

(** The same on the output documents. *)
Definition erase_serialized_entry
    (e : string * string * DecimalValue.t * DecimalValue.t * Z)
  : string * string * DecimalValue.t * DecimalValue.t * Z :=
  let '(order_id, account_id, amount, limit_price, _) := e in
  (order_id, account_id, amount, limit_price, 0).

Definition eraseTimestamps
    (out : list (TradingPair
                 * (list (string * string * DecimalValue.t * DecimalValue.t * Z)
                    * list (string * string * DecimalValue.t * DecimalValue.t * Z)))
           * list Trade.t) :=
  (map (fun doc =>
          (fst doc,
           (map erase_serialized_entry (fst (snd doc)),
            map erase_serialized_entry (snd (snd doc)))))
       (fst out),
   map erase_trade (snd out)).

(** The clock that always reads 0. *)
Definition still : nat -> Z := fun _ => 0.

(** ** The ledger and the ingestion log of a batch *)

Section Batch.
Variable now : nat -> Z.

(** The book a command is dispatched on: the book of its pair, or the
    empty book that [processOrder] creates for it. *)
Definition bookOf (st : Run) (pair : TradingPair) : OrderBook.t :=
  match Map_get pair (OrderBookService.orderBooks (service st)) with
  | Some orderBook => orderBook
  | None => createOrderBook pair
  end.





(** The orders a batch promotes: [createOrder(rawOrder)] for every
    command that passes the validator, up to the first that does not. *)
Fixpoint promotedOrders (st : Run) (rawOrders : list RawOrder.t)
  : list Order.t :=
  match rawOrders with
  | [] => []
  | rawOrder :: rest =>
      match validateOrder rawOrder with
      | Some _ => []
      | None =>
          createOrder rawOrder (now (clock st))
          :: promotedOrders (fst (processRawOrder now st rawOrder)) rest
      end
  end.

End Batch.

(** ** Trade identifiers *)

(** The trades of [l] carry the identifiers [n], [n + 1], ... in order. *)
Fixpoint ids_from (n : Z) (l : list Trade.t) : Prop :=
  match l with
  | [] => True
  | t :: rest => Trade.trade_id t = n /\ ids_from (n + 1) rest
  end.

(** ** Well-formed books *)

(** A level filed under the key [k]: its price is [k], its entries were
    placed at the limit price [k] with positive amounts, and its
    [totalVolume] is the sum of their amounts. *)
Definition level_ok (k : DecimalValue.t) (l : PriceLevel.t) : Prop :=
  PriceLevel.price l = k
  /\ Forall (fun e => OrderBookEntry.limit_price e = k
                      /\ (0 < OrderBookEntry.amount e)%Qc)
            (PriceLevel.orders l)
  /\ PriceLevel.totalVolume l = level_volume l.

(** A level as the map holds it: as above, and not empty. *)
Definition level_wf (k : DecimalValue.t) (l : PriceLevel.t) : Prop :=
  level_ok k l /\ PriceLevel.orders l <> [].

(** A side whose [prices] are sorted by [R] and list the key of every
    level. *)
Definition side_wf (R : relation Qc) (s : OrderBookSide.t) : Prop :=
  map_Forall level_wf (OrderBookSide.priceLevels s)
  /\ StronglySorted R (OrderBookSide.prices s)
  /\ (forall k, is_Some (OrderBookSide.priceLevels s !! k) ->
                k ∈ OrderBookSide.prices s).

(** Bids best first (descending), asks best first (ascending). *)
Definition book_wf (b : OrderBook.t) : Prop :=
  side_wf (flip Qcle) (OrderBook.bids b) /\ side_wf Qcle (OrderBook.asks b).

(** The order in which [addToOrderBook] keeps the prices of the side of an
    order, and the order of the side it is matched against. *)
Definition priceOrder (side : string) : relation Qc :=
  if String.eqb side "BUY" then flip Qcle else Qcle.

Definition oppositeOrder (side : string) : relation Qc :=
  if String.eqb side "BUY" then Qcle else flip Qcle.

(** ** Trades *)

(** The test [priceIsCompatible] of [matchOrder]. *)
Definition priceIsCompatible (order : Order.t) (currentPrice : DecimalValue.t)
  : bool :=
  (String.eqb (Order.side order) "BUY"
   && DecimalValue.gte (Order.limit_price order) currentPrice)
  || (String.eqb (Order.side order) "SELL"
      && DecimalValue.lte (Order.limit_price order) currentPrice).

(** A trade of the taker [order] on the book of [pair], at the level of
    price [key]. *)
Definition trade_of (order : Order.t) (pair : TradingPair)
    (key : DecimalValue.t) (t : Trade.t) : Prop :=
  Trade.pair t = pair
  /\ Trade.taker_order_id t = Order.order_id order
  /\ Trade.taker_account_id t = Order.account_id order
  /\ Trade.price t = key
  /\ (0 < Trade.amount t)%Qc.

(** The queue a fill loop was started on, [orders0], against the state it
    has reached: the makers of the trades so far are the first entries of
    the queue, and the level holds the rest, behind the last maker if that
    one stays with a reduced amount. *)
Definition fifo (orders0 : list OrderBookEntry.t) (s : FillState) : Prop :=
  map Trade.maker_order_id (fs_trades s)
  = map OrderBookEntry.order_id (take (length (fs_trades s)) orders0)
  /\ ((PriceLevel.orders (fs_level s) = drop (length (fs_trades s)) orders0)
      \/ (DecimalValue.gt (Order.amount (fs_order s)) DecimalValue.ZERO = false
          /\ exists k m a,
               length (fs_trades s) = S k
               /\ orders0 !! k = Some m
               /\ PriceLevel.orders (fs_level s)
                  = OrderBookEntry.set_amount m a :: drop (S k) orders0)).

(** The best price of the side an order is matched against. *)
Definition bestOppositePrice (order : Order.t) (orderBook : OrderBook.t)
  : option DecimalValue.t :=
  if String.eqb (Order.side order) "BUY"
  then getBestAskPrice orderBook
  else getBestBidPrice orderBook.

(** A trade made with an entry of [orders]: it names the entry as maker
    and does not exceed the entry's amount. *)
Definition maker_in (orders : list OrderBookEntry.t) (t : Trade.t) : Prop :=
  exists e,
    e ∈ orders
    /\ OrderBookEntry.order_id e = Trade.maker_order_id t
    /\ OrderBookEntry.account_id e = Trade.maker_account_id t
    /\ (Trade.amount t <= OrderBookEntry.amount e)%Qc.

(** A trade made with an entry resting in [levels], at the level of the
    trade's price. *)
Definition made_with (levels : gmap DecimalValue.t PriceLevel.t)
    (t : Trade.t) : Prop :=
  exists level,
    levels !! Trade.price t = Some level
    /\ maker_in (PriceLevel.orders level) t.

(** The taker of a trade: a CREATE command whose ids and pair the trade
    carries. *)
Definition taker_of (t : Trade.t) (order : Order.t) : Prop :=
  Order.type_op order = "CREATE"
  /\ Trade.taker_order_id t = Order.order_id order
  /\ Trade.taker_account_id t = Order.account_id order
  /\ Trade.pair t = Order.pair order.

(** ** The map of books *)

(** Every book is filed under its own pair, and no pair is filed twice. *)
Definition filed (m : list (TradingPair * OrderBook.t)) : Prop :=
  Forall (fun kv => OrderBook.pair (snd kv) = fst kv) m
  /\ NoDup (map fst m).

(** The books of a state are in order and filed under their pairs. *)
Definition sound (st : Run) : Prop :=
  Map_Forall book_wf (OrderBookService.orderBooks (service st))
  /\ filed (OrderBookService.orderBooks (service st)).

(** The numbering of the trade log of a run. *)
Definition ids_in_step (st : Run) : Prop :=
  ids_from 1 (OrderBookService.trades (service st))
  /\ MatchingEngine.nextTradeId (OrderBookService.matchingEngine (service st))
     = 1 + Z.of_nat (length (OrderBookService.trades (service st))).

(** * Properties *)

(** ** Worked runs *)

(** The repository's integration test, on the model: after its four
    commands one bid of 5 is left, and there is one trade of 5 at 50000
    between maker 1 and taker 2. *)
Example integration_test (now : nat -> Z) :
  let testOrders :=
    [buy10; sell5;
     cmd "CREATE" "3" "3" "BUY" 10 49000;
     cmd "DELETE" "3" "3" "BUY" 10 49000] in
  let '(bids, asks) :=
    match getSerializedOrderBooks
            (service (fst (processRawOrders now fresh testOrders))) with
    | [(_, sides)] => sides
    | _ => ([], [])
    end in
  map entryView bids = [("1", dec 5, dec 50000)]
  /\ map (fun t => (tradeView t, Trade.taker_order_id t))
         (snd (outputs now testOrders))
     = [(("1", dec 5, dec 50000), "2")].
Proof. vm_compute. split; reflexivity. Qed.

(** C1 (the code departs from the claim).  The SELL of 5 is filled
    completely by one trade of 5: [remainingOrder] ends at zero inside
    [matchOrder], but that is a copy; the order the service holds still
    shows 5, and the service rests it on the ask side with amount 5. *)
Theorem filled_taker_is_rested_in_full (now : nat -> Z) :
  let st1 := fst (processRawOrder now fresh buy10) in
  let order := createOrder sell5 (now (clock st1)) in
  exists orderBook,
    Map_get "BTC/USDC" (OrderBookService.orderBooks (service st1))
      = Some orderBook
    /\ (let r := matchOrder now order orderBook
                   (OrderBookService.matchingEngine (service st1))
                   (S (clock st1)) in
        map tradeView (mr_trades r) = [("1", dec 5, dec 50000)]
        /\ Order.amount (mr_remainingOrder r) = dec 0
        /\ Order.amount order = dec 5)
    /\ (exists final,
          bookAfter now [buy10; sell5] = Some final
          /\ map entryView (serializeSide (OrderBook.asks final))
             = [("2", dec 5, dec 50000)]
          /\ map entryView (serializeSide (OrderBook.bids final))
             = [("1", dec 5, dec 50000)]).
Proof.
  eexists. split; [vm_compute; reflexivity |].
  split; [vm_compute; repeat split |].
  eexists. split; [vm_compute; reflexivity |].
  split; vm_compute; reflexivity.
Qed.

(** C2 (the code departs from the claim).  A SELL of 10 empties the bid
    level at 50000: the level leaves [priceLevels], its price stays in
    [prices]. *)
Theorem emptied_level_keeps_its_price (now : nat -> Z) :
  exists final,
    bookAfter now [buy10; sell10] = Some final
    /\ OrderBookSide.priceLevels (OrderBook.bids final) = ∅
    /\ OrderBookSide.prices (OrderBook.bids final) = [dec 50000]
    /\ getBestBidPrice final = Some (dec 50000).
Proof.
  eexists. split; [vm_compute; reflexivity |].
  repeat split; vm_compute; reflexivity.
Qed.

(** After the stale price of the run above, a further BUY at 50000 pushes
    the price a second time: [prices] holds it twice for one level, and the
    serialized bids list the entry of that level twice. *)
Example stale_price_is_pushed_again (now : nat -> Z) :
  exists final,
    bookAfter now [buy10; sell10; cmd "CREATE" "3" "3" "BUY" 5 50000]
      = Some final
    /\ OrderBookSide.prices (OrderBook.bids final) = [dec 50000; dec 50000]
    /\ map fst (map_to_list (OrderBookSide.priceLevels (OrderBook.bids final)))
       = [dec 50000]
    /\ map entryView (serializeSide (OrderBook.bids final))
       = [("3", dec 5, dec 50000); ("3", dec 5, dec 50000)].
Proof.
  eexists. split; [vm_compute; reflexivity |].
  repeat split; vm_compute; reflexivity.
Qed.

(** The validator looks at [type_op] only to see that it is not empty. *)
Lemma validateOrder_ignores_type_op (order : RawOrder.t) (type_op : string) :
  RawOrder.type_op order <> "" -> type_op <> "" ->
  validateOrder
    (RawOrder.mk type_op (RawOrder.account_id order) (RawOrder.amount order)
       (RawOrder.order_id order) (RawOrder.pair order)
       (RawOrder.limit_price order) (RawOrder.side order))
  = validateOrder order.
Proof.
  intros H1 H2. unfold validateOrder. cbn [RawOrder.type_op
    RawOrder.account_id RawOrder.amount RawOrder.order_id RawOrder.pair
    RawOrder.limit_price RawOrder.side].
  destruct (RawOrder.type_op order) as [|c1 s1]; [done |].
  destruct type_op as [|c2 s2]; [done |].
  reflexivity.
Qed.

(** C8 (the code departs from the claim).  A command whose [type_op] is
    neither CREATE nor DELETE passes the validator, and processing it
    creates the book of its pair without any error. *)
Theorem unknown_type_op_is_accepted (now : nat -> Z) :
  let update := cmd "UPDATE" "1" "1" "BUY" 10 50000 in
  validateOrder update = None
  /\ processRawOrder now fresh update
     = (mkRun (OrderBookService.mk
                 [("BTC/USDC", createOrderBook "BTC/USDC")]
                 (MatchingEngine.mk 1) [])
              1,
        None).
Proof. split; vm_compute; reflexivity. Qed.

(** C4.  Scenario B: three resting BUYs at 49000, 50000 and 51000 (ids 1, 2
    and 3, amount 10 each), then a SELL of 25 at 49000 (id 4), whatever the
    accounts and the clock.  The trades are maker 3 for 10 at 51000, maker
    2 for 10 at 50000 and maker 1 for 5 at 49000, in that order, and the
    bid side is left with the single entry id 1, amount 5, at 49000. *)
Theorem scenario_B (now : nat -> Z) (a1 a2 a3 a4 : string) :
  a1 <> "" -> a2 <> "" -> a3 <> "" -> a4 <> "" ->
  let scenarioB :=
    [cmd "CREATE" a1 "1" "BUY" 10 49000;
     cmd "CREATE" a2 "2" "BUY" 10 50000;
     cmd "CREATE" a3 "3" "BUY" 10 51000;
     cmd "CREATE" a4 "4" "SELL" 25 49000] in
  let '(st, err) := processRawOrders now fresh scenarioB in
  err = None
  /\ map tradeView (OrderBookService.trades (service st))
     = [("3", dec 10, dec 51000); ("2", dec 10, dec 50000);
        ("1", dec 5, dec 49000)]
  /\ map Trade.trade_id (OrderBookService.trades (service st)) = [1; 2; 3]
  /\ map Trade.taker_order_id (OrderBookService.trades (service st))
     = ["4"; "4"; "4"]
  /\ exists final,
       OrderBookService.orderBooks (service st) = [("BTC/USDC", final)]
       /\ map entryView (serializeSide (OrderBook.bids final))
          = [("1", dec 5, dec 49000)]
       /\ OrderBookSide.priceLevels (OrderBook.bids final)
          = {[ dec 49000 :=
                 PriceLevel.mk (dec 49000)
                   [OrderBookEntry.mk "1" a1 (dec 5) (dec 49000) (now 0%nat)]
                   (dec 5) ]}.
Proof.
  intros H1 H2 H3 H4.
  destruct a1 as [|c1 a1]; [done |]. destruct a2 as [|c2 a2]; [done |].
  destruct a3 as [|c3 a3]; [done |]. destruct a4 as [|c4 a4]; [done |].
  vm_compute. repeat split. eexists. repeat split.
Qed.

Lemma scenario_B_witness :
  "alice" <> "" /\ "bob" <> "" /\ "carol" <> "" /\ "dave" <> ""
  /\ map tradeView
       (OrderBookService.trades
          (service
             (fst (processRawOrders (fun n => Z.of_nat n) fresh
                     [cmd "CREATE" "alice" "1" "BUY" 10 49000;
                      cmd "CREATE" "bob" "2" "BUY" 10 50000;
                      cmd "CREATE" "carol" "3" "BUY" 10 51000;
                      cmd "CREATE" "dave" "4" "SELL" 25 49000]))))
     = [("3", dec 10, dec 51000); ("2", dec 10, dec 50000);
        ("1", dec 5, dec 49000)].
Proof.
  assert (Ha : "alice" <> "") by discriminate.
  assert (Hb : "bob" <> "") by discriminate.
  assert (Hc : "carol" <> "") by discriminate.
  assert (Hd : "dave" <> "") by discriminate.
  repeat (split; [assumption |]).
  pose proof (scenario_B (fun n => Z.of_nat n) "alice" "bob" "carol" "dave"
                Ha Hb Hc Hd) as H.
  cbv zeta in H.
  destruct (processRawOrders _ _ _) as [st err].
  exact (proj1 (proj2 H)).
Defined.

(** ** Cancellation *)

Section FindIndex.
Context {A : Type} (p : A -> bool).

Lemma findIndex_nil : findIndex p [] = None.
Proof. reflexivity. Qed.

Lemma findIndex_cons x l :
  findIndex p (x :: l)
  = if p x then Some 0%nat else S <$> findIndex p l.
Proof.
  unfold findIndex. simpl.
  destruct (decide (p x = true)) as [Hx | Hx].
  - rewrite Hx. reflexivity.
  - destruct (p x); [done |].
    destruct (list_find _ l) as [[i y]|]; reflexivity.
Qed.

Lemma findIndex_none l :
  Forall (fun x => p x = false) l -> findIndex p l = None.
Proof.
  induction 1 as [|x l Hx _ IH]; [reflexivity |].
  rewrite findIndex_cons, Hx, IH. reflexivity.
Qed.

Lemma findIndex_first before x after :
  Forall (fun y => p y = false) before -> p x = true ->
  findIndex p (before ++ x :: after) = Some (length before).
Proof.
  intros Hb Hx. induction Hb as [|y l Hy _ IH]; simpl.
  - rewrite findIndex_cons, Hx. reflexivity.
  - rewrite findIndex_cons, Hy, IH. reflexivity.
Qed.

Lemma findIndex_Some l i :
  findIndex p l = Some i ->
  exists before x after,
    l = before ++ x :: after /\ length before = i
    /\ Forall (fun y => p y = false) before /\ p x = true.
Proof.
  revert i. induction l as [|y l IH]; intros i; [discriminate |].
  rewrite findIndex_cons. destruct (p y) eqn:Hy.
  - intros [= <-]. exists [], y, l. repeat split; auto.
  - destruct (findIndex p l) as [j|]; [| discriminate].
    intros [= <-]. destruct (IH j eq_refl) as (b & x & a & -> & <- & Hb & Hx).
    exists (y :: b), x, a. repeat split; auto.
Qed.
End FindIndex.

Lemma splice1_middle {A : Type} (before : list A) x after :
  splice1 (length before) (before ++ x :: after) = before ++ after.
Proof.
  unfold splice1. rewrite take_app_length. f_equal.
  induction before as [|y before IH]; [reflexivity | exact IH].
Qed.

Lemma splice_price_removeFirst (key : DecimalValue.t) prices :
  match findIndex
          (fun p => DecimalValue.eq (DecimalValue.toString p) key) prices with
  | Some priceIndex => splice1 priceIndex prices
  | None => prices
  end = removeFirst key prices.
Proof.
  induction prices as [|x prices IH]; [reflexivity |].
  rewrite findIndex_cons. simpl.
  unfold DecimalValue.eq, DecimalValue.toString in *.
  destruct (decide (x = key)) as [-> | Hne].
  - rewrite bool_decide_eq_true_2 by reflexivity. reflexivity.
  - rewrite bool_decide_eq_false_2 by assumption.
    destruct (findIndex _ prices) as [i|]; simpl.
    + unfold splice1 in *. simpl. f_equal. exact IH.
    + f_equal. exact IH.
Qed.

(** The three outcomes of [removeFromOrderBook]. *)

Lemma removeFromOrderBook_no_level order orderBook :
  OrderBookSide.priceLevels (getOrderBookSide orderBook (Order.side order))
    !! DecimalValue.toString (Order.limit_price order) = None ->
  removeFromOrderBook order orderBook = (false, orderBook).
Proof. unfold removeFromOrderBook. intros ->. reflexivity. Qed.

Lemma removeFromOrderBook_no_entry order orderBook priceLevel :
  OrderBookSide.priceLevels (getOrderBookSide orderBook (Order.side order))
    !! DecimalValue.toString (Order.limit_price order) = Some priceLevel ->
  Forall (fun e => OrderBookEntry.order_id e <> Order.order_id order)
         (PriceLevel.orders priceLevel) ->
  removeFromOrderBook order orderBook = (false, orderBook).
Proof.
  unfold removeFromOrderBook. intros -> Hall.
  rewrite findIndex_none; [reflexivity |].
  eapply Forall_impl; [exact Hall |].
  intros o Ho. apply String.eqb_neq, Ho.
Qed.

Lemma removeFromOrderBook_found order orderBook priceLevel before e after :
  let side := getOrderBookSide orderBook (Order.side order) in
  let key := DecimalValue.toString (Order.limit_price order) in
  OrderBookSide.priceLevels side !! key = Some priceLevel ->
  PriceLevel.orders priceLevel = before ++ e :: after ->
  Forall (fun o => OrderBookEntry.order_id o <> Order.order_id order) before ->
  OrderBookEntry.order_id e = Order.order_id order ->
  removeFromOrderBook order orderBook
  = (true,
     setOrderBookSide orderBook (Order.side order)
       (if decide (before ++ after = [])
        then OrderBookSide.mk
               (delete key (OrderBookSide.priceLevels side))
               (removeFirst key (OrderBookSide.prices side))
        else OrderBookSide.mk
               (<[key :=
                    PriceLevel.mk (PriceLevel.price priceLevel)
                      (before ++ after)
                      (DecimalValue.minus
                         (PriceLevel.totalVolume priceLevel)
                         (OrderBookEntry.amount e))]>
                  (OrderBookSide.priceLevels side))
               (OrderBookSide.prices side))).
Proof.
  intros side key Hlevel Horders Hbefore He.
  unfold removeFromOrderBook. fold side. fold key.
  rewrite Hlevel, Horders.
  rewrite findIndex_first.
  2: { eapply Forall_impl; [exact Hbefore |].
       intros o Ho. apply String.eqb_neq, Ho. }
  2: { apply String.eqb_eq, He. }
  rewrite list_lookup_middle by reflexivity.
  rewrite splice1_middle, splice_price_removeFirst.
  destruct (decide (before ++ after = [])) as [Hnil | Hnil].
  - rewrite Hnil. reflexivity.
  - rewrite bool_decide_eq_false_2; [reflexivity |].
    intros Hlen. apply Hnil. destruct (before ++ after); [done | discriminate].
Qed.

(** C5.  [removeFromOrderBook] looks the level up at the command's side and
    price and scans it for the first entry with the command's order id.
    Without a level, or without such an entry, it returns [false] and the
    book is the one it was given.  With such an entry [e], between [before]
    and [after], it returns [true]; the level keeps [before ++ after] and
    its total volume drops by the amount of [e]; when nothing is left the
    level is deleted and the first occurrence of its price leaves
    [prices]. *)
Theorem removeFromOrderBook_spec (order : Order.t) (orderBook : OrderBook.t) :
  let side := getOrderBookSide orderBook (Order.side order) in
  let key := DecimalValue.toString (Order.limit_price order) in
  let other e := OrderBookEntry.order_id e <> Order.order_id order in
  (OrderBookSide.priceLevels side !! key = None ->
   removeFromOrderBook order orderBook = (false, orderBook))
  /\ (forall priceLevel,
        OrderBookSide.priceLevels side !! key = Some priceLevel ->
        Forall other (PriceLevel.orders priceLevel) ->
        removeFromOrderBook order orderBook = (false, orderBook))
  /\ (forall priceLevel before e after,
        OrderBookSide.priceLevels side !! key = Some priceLevel ->
        PriceLevel.orders priceLevel = before ++ e :: after ->
        Forall other before ->
        OrderBookEntry.order_id e = Order.order_id order ->
        removeFromOrderBook order orderBook
        = (true,
           setOrderBookSide orderBook (Order.side order)
             (if decide (before ++ after = [])
              then OrderBookSide.mk
                     (delete key (OrderBookSide.priceLevels side))
                     (removeFirst key (OrderBookSide.prices side))
              else OrderBookSide.mk
                     (<[key :=
                          PriceLevel.mk (PriceLevel.price priceLevel)
                            (before ++ after)
                            (DecimalValue.minus
                               (PriceLevel.totalVolume priceLevel)
                               (OrderBookEntry.amount e))]>
                        (OrderBookSide.priceLevels side))
                     (OrderBookSide.prices side)))).
Proof.
  intros side key other. split; [| split].
  - apply removeFromOrderBook_no_level.
  - apply removeFromOrderBook_no_entry.
  - apply removeFromOrderBook_found.
Qed.

Lemma removeFromOrderBook_spec_witness :
  let level := PriceLevel.mk (dec 100) [entry "a" 1 100; entry "b" 2 100] (dec 3) in
  let orderBook :=
    OrderBook.mk "BTC/USDC"
      (OrderBookSide.mk {[ dec 100 := level ]} [dec 100])
      createOrderBookSide in
  let order := Order.mk "DELETE" "acct" (dec 2) "b" "BTC/USDC" (dec 100) "BUY" 0 in
  removeFromOrderBook order orderBook
  = (true,
     OrderBook.mk "BTC/USDC"
       (OrderBookSide.mk
          (<[ dec 100 :=
                PriceLevel.mk (dec 100) [entry "a" 1 100]
                              (DecimalValue.minus (dec 3) (dec 2)) ]>
             {[ dec 100 := level ]})
          [dec 100])
       createOrderBookSide).
Proof.
  intros level orderBook order.
  pose proof (removeFromOrderBook_spec order orderBook) as (_ & _ & H).
  apply (H level [entry "a" 1 100] (entry "b" 2 100) []).
  - vm_compute. reflexivity.
  - reflexivity.
  - repeat constructor. discriminate.
  - reflexivity.
Defined.

(** ** The frame of [matchOrder] *)

(** C9.  [matchOrder] leaves the order's own side of the book as it was:
    [bids] for a BUY, [asks] for a SELL.  Only the opposite side changes;
    the pair of the book stays too. *)
Theorem matchOrder_own_side_unchanged (now : nat -> Z) (order : Order.t)
    (orderBook : OrderBook.t) (engine : MatchingEngine.t) (clock : nat) :
  let orderBook' := mr_orderBook (matchOrder now order orderBook engine clock) in
  (Order.side order = "BUY" ->
   OrderBook.bids orderBook' = OrderBook.bids orderBook)
  /\ (Order.side order = "SELL" ->
      OrderBook.asks orderBook' = OrderBook.asks orderBook)
  /\ getOrderBookSide orderBook' (Order.side order)
     = getOrderBookSide orderBook (Order.side order)
  /\ OrderBook.pair orderBook' = OrderBook.pair orderBook.
Proof.
  unfold matchOrder, setOppositeSide, getOrderBookSide.
  case_bool_decide; simpl; [repeat split |].
  destruct (String.eqb (Order.side order) "BUY") eqn:Hside; simpl.
  - repeat split. intros Hs. rewrite Hs in Hside. discriminate.
  - repeat split. intros Hs. rewrite Hs in Hside. discriminate.
Qed.

Lemma matchOrder_own_side_unchanged_witness :
  let now := fun n => Z.of_nat n in
  let buy := createOrder (cmd "CREATE" "1" "1" "BUY" 10 50000) 0 in
  let sell := createOrder (cmd "CREATE" "2" "2" "SELL" 5 50000) 1 in
  let orderBook := addToOrderBook buy (createOrderBook "BTC/USDC") in
  Order.side sell = "SELL"
  /\ OrderBook.asks
       (mr_orderBook (matchOrder now sell orderBook (MatchingEngine.mk 1) 2))
     = OrderBook.asks orderBook.
Proof.
  intros now buy sell orderBook.
  split; [reflexivity |].
  pose proof (matchOrder_own_side_unchanged now sell orderBook
                (MatchingEngine.mk 1) 2) as (_ & Hsell & _).
  apply Hsell. reflexivity.
Defined.

(** ** Books inside the service map *)

Section MapForall.
Context {V : Type} (P : V -> Prop).

Lemma Map_Forall_get k m v :
  Map_Forall P m -> Map_get k m = Some v -> P v.
Proof.
  induction 1 as [|[k' v'] m Hv _ IH]; simpl; [discriminate |].
  destruct (String.eqb k' k); [intros [= <-]; exact Hv | exact IH].
Qed.

Lemma Map_Forall_set k v m :
  Map_Forall P m -> P v -> Map_Forall P (Map_set k v m).
Proof.
  intros Hm Hv. induction Hm as [|[k' v'] m Hv' Hm IH]; simpl.
  - repeat constructor. exact Hv.
  - destruct (String.eqb k' k); constructor; assumption.
Qed.
End MapForall.

Lemma Map_get_set_eq {V : Type} k (v : V) m : Map_get k (Map_set k v m) = Some v.
Proof.
  induction m as [|[k' v'] m IH]; simpl.
  - rewrite String.eqb_refl. reflexivity.
  - destruct (String.eqb k' k) eqn:Hk; simpl.
    + rewrite String.eqb_refl. reflexivity.
    + rewrite Hk. exact IH.
Qed.

(** ** Resting amounts are positive *)

Section SideLemmas.
Context (P : OrderBookSide.t -> Prop).
Let PB (b : OrderBook.t) := P (OrderBook.bids b) /\ P (OrderBook.asks b).

Lemma sides_get b side : PB b -> P (getOrderBookSide b side).
Proof. unfold getOrderBookSide. intros [? ?]. destruct (String.eqb _ _); auto. Qed.

Lemma sides_opposite b side : PB b -> P (oppositeSideOf b side).
Proof. unfold oppositeSideOf. intros [? ?]. destruct (String.eqb _ _); auto. Qed.

Lemma sides_set b side s : PB b -> P s -> PB (setOrderBookSide b side s).
Proof.
  unfold setOrderBookSide. intros [? ?] ?.
  destruct (String.eqb _ _); split; auto.
Qed.

Lemma sides_set_opposite b side s : PB b -> P s -> PB (setOppositeSide b side s).
Proof.
  unfold setOppositeSide. intros [? ?] ?.
  destruct (String.eqb _ _); split; auto.
Qed.
End SideLemmas.

Section Positive.
Variable now : nat -> Z.

(** A maker that a fill brings to zero is dequeued in that same step. *)
Lemma fill_body_positive pair s :
  positive_level (fs_level s) -> positive_level (fs_level (fill_body now pair s)).
Proof.
  unfold positive_level, fill_body.
  destruct s as [o [p [|m rest] tv] ts e c]; simpl; [auto |].
  intros Hpos. apply Forall_cons in Hpos as [Hm Hrest].
  destruct (DecimalValue.isZero _ || DecimalValue.lt _ _) eqn:Hsh; simpl;
    [exact Hrest |].
  constructor; [| exact Hrest]. simpl.
  apply orb_false_elim in Hsh as [Hz Hlt].
  revert Hz Hlt. dec_cases; intros; qc_lra.
Qed.

Lemma matchAtPriceLevel_positive order priceLevel pair engine clock :
  positive_level priceLevel ->
  positive_level (fs_level (matchAtPriceLevel now order priceLevel pair engine clock)).
Proof.
  intros Hpos. unfold matchAtPriceLevel, matchAtPriceLevel_loop.
  apply (while_invariant _ _ _ _ (fun s => positive_level (fs_level s)));
    [| exact Hpos].
  intros s _. apply fill_body_positive.
Qed.

Lemma match_body_positive order pair s :
  positive_levels (ms_priceLevels s) ->
  positive_levels (ms_priceLevels (match_body now order pair s)).
Proof.
  unfold match_body. destruct s as [o lv [|p ps] ts e c b]; simpl; [auto |].
  intros Hpos. destruct (negb _); simpl; [exact Hpos |].
  destruct (lv !! _) as [lvl|] eqn:Hlvl; simpl; [| exact Hpos].
  case_bool_decide; simpl; [exact Hpos |].
  case_bool_decide; simpl.
  - apply map_Forall_delete, Hpos.
  - apply map_Forall_insert_2; [| exact Hpos].
    apply matchAtPriceLevel_positive. exact (Hpos _ _ Hlvl).
Qed.

Lemma matchOrder_positive order orderBook engine clock :
  positive_book orderBook ->
  positive_book (mr_orderBook (matchOrder now order orderBook engine clock)).
Proof.
  intros Hpos. unfold matchOrder. case_bool_decide; simpl; [exact Hpos |].
  apply (sides_set_opposite positive_side); [exact Hpos |].
  unfold positive_side, matchOrder_loop. simpl.
  apply (while_invariant _ _ _ _ (fun s => positive_levels (ms_priceLevels s))).
  - intros s _. apply match_body_positive.
  - simpl. apply (sides_opposite positive_side), Hpos.
Qed.

(** An order is rested with the amount it carries. *)
Lemma addToOrderBook_positive order orderBook :
  (0 < Order.amount order)%Qc ->
  positive_book orderBook -> positive_book (addToOrderBook order orderBook).
Proof.
  intros Hamt Hpos. unfold addToOrderBook.
  apply (sides_set positive_side); [exact Hpos |].
  pose proof (sides_get positive_side _ (Order.side order) Hpos) as Hside.
  set (side := getOrderBookSide orderBook (Order.side order)) in *.
  set (key := DecimalValue.toString (Order.limit_price order)).
  unfold positive_side in *.
  destruct (OrderBookSide.priceLevels side !! key) as [lvl|] eqn:Hlvl; simpl.
  - rewrite Hlvl. simpl. apply map_Forall_insert_2; [| exact Hside].
    unfold positive_level. simpl. apply Forall_app. split.
    + exact (Hside _ _ Hlvl).
    + repeat constructor. exact Hamt.
  - rewrite lookup_insert_eq. simpl.
    apply map_Forall_insert_2.
    + unfold positive_level. simpl. repeat constructor. exact Hamt.
    + apply map_Forall_insert_2; [constructor | exact Hside].
Qed.

Lemma removeFromOrderBook_positive order orderBook :
  positive_book orderBook ->
  positive_book (snd (removeFromOrderBook order orderBook)).
Proof.
  intros Hpos. unfold removeFromOrderBook.
  pose proof (sides_get positive_side _ (Order.side order) Hpos) as Hside.
  set (side := getOrderBookSide orderBook (Order.side order)) in *.
  set (key := DecimalValue.toString (Order.limit_price order)).
  destruct (OrderBookSide.priceLevels side !! key) as [lvl|] eqn:Hlvl;
    [| exact Hpos].
  destruct (findIndex _ _) as [i|]; [| exact Hpos].
  destruct (PriceLevel.orders lvl !! i) as [e|]; [| exact Hpos].
  simpl. apply (sides_set positive_side); [exact Hpos |].
  unfold positive_side in *. case_bool_decide; simpl.
  - apply map_Forall_delete, Hside.
  - apply map_Forall_insert_2; [| exact Hside].
    unfold positive_level, splice1. simpl. apply Forall_app. split.
    + apply Forall_take. exact (Hside _ _ Hlvl).
    + apply Forall_drop. exact (Hside _ _ Hlvl).
Qed.

Lemma processOrder_positive st order :
  positive_service (service st) ->
  positive_service (service (processOrder now st order)).
Proof.
  intros Hpos. unfold processOrder.
  set (books1 := if Map_has _ _ then _ else _).
  assert (Hbooks1 : Map_Forall positive_book books1).
  { subst books1. destruct (Map_has _ _); [exact Hpos |].
    apply Map_Forall_set; [exact Hpos |].
    split; apply map_Forall_empty. }
  destruct (Map_get _ books1) as [orderBook|] eqn:Hget; [| exact Hbooks1].
  pose proof (Map_Forall_get _ _ _ _ Hbooks1 Hget) as Hbook.
  destruct (String.eqb _ "CREATE").
  - unfold handleCreateOrder, positive_service. simpl.
    apply Map_Forall_set; [exact Hbooks1 |].
    pose proof (matchOrder_positive order orderBook
                  (OrderBookService.matchingEngine (service st)) (clock st)
                  Hbook) as Hm.
    unfold DecimalValue.gt. case_bool_decide as Hgt; [| exact Hm].
    apply addToOrderBook_positive; [| exact Hm].
    revert Hgt. dec_unfold. intros; qc_lra.
  - destruct (String.eqb _ "DELETE"); [| exact Hbooks1].
    unfold handleDeleteOrder, positive_service.
    pose proof (removeFromOrderBook_positive order orderBook Hbook) as Hr.
    destruct (removeFromOrderBook order orderBook) as [removed orderBook'].
    simpl in *. apply Map_Forall_set; [exact Hbooks1 | exact Hr].
Qed.
Lemma processRawOrder_positive st rawOrder :
  positive_service (service st) ->
  positive_service (service (fst (processRawOrder now st rawOrder))).
Proof.
  intros Hpos. unfold processRawOrder.
  destruct (validateOrder rawOrder); simpl; [exact Hpos |].
  apply processOrder_positive. exact Hpos.
Qed.

Lemma processRawOrders_positive rawOrders st :
  positive_service (service st) ->
  positive_service (service (fst (processRawOrders now st rawOrders))).
Proof.
  revert st. induction rawOrders as [|rawOrder rest IH]; intros st Hpos;
    simpl; [exact Hpos |].
  pose proof (processRawOrder_positive st rawOrder Hpos) as Hstep.
  destruct (processRawOrder now st rawOrder) as [st' [e|]]; simpl in *.
  - exact Hstep.
  - apply IH, Hstep.
Qed.
End Positive.

(** C10.  After any batch of commands processed by a fresh service, every
    entry resting in every price level of every book has a strictly
    positive amount. *)
Theorem resting_amounts_positive (now : nat -> Z) (rawOrders : list RawOrder.t) :
  let svc := service (fst (processRawOrders now fresh rawOrders)) in
  forall pair orderBook,
    (pair, orderBook) ∈ OrderBookService.orderBooks svc ->
    forall side price priceLevel e,
      OrderBookSide.priceLevels (getOrderBookSide orderBook side) !! price
        = Some priceLevel ->
      e ∈ PriceLevel.orders priceLevel ->
      (0 < OrderBookEntry.amount e)%Qc.
Proof.
  intros svc pair orderBook Hin side price priceLevel e Hlevel He.
  assert (Hpos : positive_service svc).
  { apply processRawOrders_positive. constructor. }
  unfold positive_service, Map_Forall in Hpos.
  rewrite Forall_forall in Hpos. specialize (Hpos _ Hin). simpl in Hpos.
  pose proof (sides_get positive_side _ side Hpos) as Hside.
  specialize (Hside _ _ Hlevel). unfold positive_level in Hside.
  rewrite Forall_forall in Hside. apply Hside, He.
Qed.

Lemma resting_amounts_positive_witness :
  (0 < OrderBookEntry.amount (OrderBookEntry.mk "1" "1" (dec 5) (dec 50000) 0))%Qc.
Proof.
  set (e := OrderBookEntry.mk "1" "1" (dec 5) (dec 50000) 0).
  set (svc := service (fst (processRawOrders (fun _ => 0) fresh [buy10; sell5]))).
  assert (exists orderBook priceLevel,
            ("BTC/USDC", orderBook) ∈ OrderBookService.orderBooks svc
            /\ OrderBookSide.priceLevels (getOrderBookSide orderBook "BUY")
                 !! dec 50000 = Some priceLevel
            /\ e ∈ PriceLevel.orders priceLevel)
    as (orderBook & priceLevel & Hbook & Hlevel & He).
  { eexists. eexists.
    split; [vm_compute; apply list_elem_of_here |].
    split; [vm_compute; reflexivity |].
    vm_compute. apply list_elem_of_here. }
  exact (resting_amounts_positive (fun _ => 0) [buy10; sell5]
           "BTC/USDC" orderBook Hbook "BUY" (dec 50000) priceLevel e
           Hlevel He).
Defined.

(** ** Conservation of volume *)

Lemma sumQc_app l1 l2 : sumQc (l1 ++ l2) = (sumQc l1 + sumQc l2)%Qc.
Proof.
  induction l1 as [|x l1 IH]; simpl; [ring |]. rewrite IH. ring.
Qed.






Lemma sumQc_cons x l : sumQc (x :: l) = (x + sumQc l)%Qc.
Proof. reflexivity. Qed.

Section Conservation.
Variable now : nat -> Z.







End Conservation.


Lemma level_volume_split priceLevel before e after :
  PriceLevel.orders priceLevel = before ++ e :: after ->
  (level_volume priceLevel
   = sumQc (map OrderBookEntry.amount (before ++ after))
     + OrderBookEntry.amount e)%Qc.
Proof.
  intros Horders. unfold level_volume. rewrite Horders.
  rewrite !map_app, !sumQc_app. simpl. ring.
Qed.



Section Ledger.
Variable now : nat -> Z.






End Ledger.


(** ** Runs under different clocks *)

(** Two loops that step together end together. *)
Lemma while_simulation {S T : Type}
    (cond1 : S -> bool) (body1 : S -> S) (measure1 : S -> nat)
    (dec1 : forall s, cond1 s = true -> (measure1 (body1 s) < measure1 s)%nat)
    (cond2 : T -> bool) (body2 : T -> T) (measure2 : T -> nat)
    (dec2 : forall s, cond2 s = true -> (measure2 (body2 s) < measure2 s)%nat)
    (f : S -> T) :
  (forall s, cond2 (f s) = cond1 s) ->
  (forall s, cond1 s = true -> body2 (f s) = f (body1 s)) ->
  forall s,
    while cond2 body2 measure2 dec2 (f s)
    = f (while cond1 body1 measure1 dec1 s).
Proof.
  intros Hcond Hbody s. remember (measure1 s) as n eqn:Hn. revert s Hn.
  induction n as [n IH] using lt_wf_ind. intros s ->.
  rewrite (while_unroll cond1), (while_unroll cond2), Hcond.
  destruct (cond1 s) eqn:Hc; [| reflexivity].
  rewrite Hbody by exact Hc.
  eapply IH; [apply dec1, Hc | reflexivity].
Qed.

Section EraseLoops.
Variable now : nat -> Z.

Lemma fill_cond_erase s : fill_cond (erase_fill s) = fill_cond s.
Proof.
  unfold fill_cond, erase_fill. simpl. rewrite length_map. reflexivity.
Qed.

Lemma fill_body_erase pair s :
  fill_body still pair (erase_fill s) = erase_fill (fill_body now pair s).
Proof.
  unfold fill_body, erase_fill.
  destruct s as [o [p [|m rest] tv] ts e c]; simpl; [reflexivity |].
  rewrite map_app. simpl.
  destruct (DecimalValue.isZero _ || DecimalValue.lt _ _); reflexivity.
Qed.

Lemma matchAtPriceLevel_erase order priceLevel pair engine clock :
  matchAtPriceLevel still (erase_order order) (erase_level priceLevel) pair
                    engine clock
  = erase_fill (matchAtPriceLevel now order priceLevel pair engine clock).
Proof.
  unfold matchAtPriceLevel, matchAtPriceLevel_loop.
  rewrite <- (while_simulation _ _ _ (fill_body_decreases now pair)
                _ _ _ (fill_body_decreases still pair) erase_fill).
  - reflexivity.
  - apply fill_cond_erase.
  - intros s _. apply fill_body_erase.
Qed.

Lemma match_cond_erase s : match_cond (erase_match s) = match_cond s.
Proof. reflexivity. Qed.

Lemma match_body_erase order pair s :
  match_body still (erase_order order) pair (erase_match s)
  = erase_match (match_body now order pair s).
Proof.
  unfold match_body, erase_match.
  destruct s as [o lv [|p ps] ts e c b]; simpl; [reflexivity |].
  destruct (negb _); simpl; [reflexivity |].
  rewrite lookup_fmap.
  destruct (lv !! _) as [lvl|] eqn:Hlvl; simpl; [| reflexivity].
  rewrite length_map. case_bool_decide; simpl; [reflexivity |].
  change (PriceLevel.mk (PriceLevel.price lvl)
            (map erase_entry (PriceLevel.orders lvl))
            (PriceLevel.totalVolume lvl)) with (erase_level lvl).
  change (Order.mk (Order.type_op o) (Order.account_id o) (Order.amount o)
            (Order.order_id o) (Order.pair o) (Order.limit_price o)
            (Order.side o) 0) with (erase_order o).
  rewrite matchAtPriceLevel_erase. simpl. rewrite length_map.
  case_bool_decide; simpl.
  - rewrite fmap_delete, map_app. reflexivity.
  - rewrite fmap_insert, map_app. reflexivity.
Qed.
End EraseLoops.

Lemma findIndex_map {A B : Type} (p : B -> bool) (f : A -> B) l :
  findIndex p (map f l) = findIndex (fun x => p (f x)) l.
Proof.
  induction l as [|x l IH]; [reflexivity |].
  simpl. rewrite !findIndex_cons, IH. reflexivity.
Qed.

Lemma lookup_map {A B : Type} (f : A -> B) l (i : nat) :
  map f l !! i = f <$> l !! i.
Proof.
  revert i. induction l as [|x l IH]; intros [|i]; simpl; auto.
Qed.

Lemma splice1_map {A B : Type} (f : A -> B) i l :
  splice1 i (map f l) = map f (splice1 i l).
Proof. unfold splice1. rewrite map_app, firstn_map, skipn_map. reflexivity. Qed.

Lemma oppositeSideOf_erase b side :
  oppositeSideOf (erase_book b) side = erase_side (oppositeSideOf b side).
Proof. unfold oppositeSideOf. destruct (String.eqb _ _); reflexivity. Qed.

Lemma getOrderBookSide_erase b side :
  getOrderBookSide (erase_book b) side = erase_side (getOrderBookSide b side).
Proof. unfold getOrderBookSide. destruct (String.eqb _ _); reflexivity. Qed.

Lemma setOppositeSide_erase b side s :
  setOppositeSide (erase_book b) side (erase_side s)
  = erase_book (setOppositeSide b side s).
Proof. unfold setOppositeSide. destruct (String.eqb _ _); reflexivity. Qed.

Lemma setOrderBookSide_erase b side s :
  setOrderBookSide (erase_book b) side (erase_side s)
  = erase_book (setOrderBookSide b side s).
Proof. unfold setOrderBookSide. destruct (String.eqb _ _); reflexivity. Qed.

Section EraseMatch.
Variable now : nat -> Z.

Lemma matchOrder_erase order orderBook engine clock :
  matchOrder still (erase_order order) (erase_book orderBook) engine clock
  = erase_result (matchOrder now order orderBook engine clock).
Proof.
  unfold matchOrder. cbn [erase_order Order.side].
  rewrite oppositeSideOf_erase. cbn [erase_side OrderBookSide.prices].
  case_bool_decide; [reflexivity |].
  unfold matchOrder_loop.
  set (s0 := mkMatch order _ _ _ _ _ _).
  change (mkMatch (erase_order order) _ _ _ _ _ _) with (erase_match s0).
  cbn [erase_book OrderBook.pair].
  rewrite (while_simulation _ _ _
             (match_body_decreases now order (OrderBook.pair orderBook))
             _ _ _
             (match_body_decreases still (erase_order order)
                                   (OrderBook.pair orderBook))
             erase_match
             match_cond_erase
             (fun s _ => match_body_erase now order (OrderBook.pair orderBook) s)).
  unfold erase_result. cbn. f_equal.
  apply (setOppositeSide_erase orderBook (Order.side order)
           (OrderBookSide.mk _ _)).
Qed.
End EraseMatch.

Lemma addToOrderBook_erase order orderBook :
  addToOrderBook (erase_order order) (erase_book orderBook)
  = erase_book (addToOrderBook order orderBook).
Proof.
  unfold addToOrderBook. cbn [erase_order Order.side Order.limit_price
    Order.order_id Order.account_id Order.amount Order.timestamp].
  rewrite getOrderBookSide_erase.
  set (side := getOrderBookSide orderBook (Order.side order)).
  set (key := DecimalValue.toString (Order.limit_price order)).
  rewrite <- setOrderBookSide_erase. f_equal.
  cbn [erase_side OrderBookSide.priceLevels OrderBookSide.prices].
  rewrite lookup_fmap.
  destruct (OrderBookSide.priceLevels side !! key) as [lvl|] eqn:Hlvl; simpl.
  - rewrite lookup_fmap, Hlvl. simpl. unfold erase_side. simpl.
    rewrite fmap_insert. unfold erase_level at 2. simpl.
    rewrite map_app. reflexivity.
  - rewrite !lookup_insert_eq. unfold erase_side. simpl.
    rewrite !fmap_insert. reflexivity.
Qed.

Lemma removeFromOrderBook_erase order orderBook :
  removeFromOrderBook (erase_order order) (erase_book orderBook)
  = (fst (removeFromOrderBook order orderBook),
     erase_book (snd (removeFromOrderBook order orderBook))).
Proof.
  unfold removeFromOrderBook. cbn [erase_order Order.side Order.limit_price
    Order.order_id].
  rewrite getOrderBookSide_erase.
  set (side := getOrderBookSide orderBook (Order.side order)).
  set (key := DecimalValue.toString (Order.limit_price order)).
  cbn [erase_side OrderBookSide.priceLevels OrderBookSide.prices].
  rewrite lookup_fmap.
  destruct (OrderBookSide.priceLevels side !! key) as [lvl|] eqn:Hlvl; simpl;
    [| reflexivity].
  rewrite findIndex_map. cbn [erase_entry OrderBookEntry.order_id].
  destruct (findIndex _ (PriceLevel.orders lvl)) as [i|]; [| reflexivity].
  rewrite lookup_map.
  destruct (PriceLevel.orders lvl !! i) as [e|]; simpl; [| reflexivity].
  f_equal. rewrite <- setOrderBookSide_erase. f_equal.
  rewrite splice1_map, length_map.
  case_bool_decide; unfold erase_side; simpl.
  - rewrite fmap_delete. reflexivity.
  - rewrite fmap_insert. reflexivity.
Qed.

Lemma Map_get_erase k m :
  Map_get k (erase_books m) = erase_book <$> Map_get k m.
Proof.
  induction m as [|[k' v] m IH]; simpl; [reflexivity |].
  destruct (String.eqb k' k); [reflexivity | exact IH].
Qed.

Lemma Map_set_erase k v m :
  Map_set k (erase_book v) (erase_books m) = erase_books (Map_set k v m).
Proof.
  induction m as [|[k' v'] m IH]; simpl; [reflexivity |].
  destruct (String.eqb k' k); simpl; [reflexivity |]. rewrite IH. reflexivity.
Qed.

Lemma Map_has_erase k m : Map_has k (erase_books m) = Map_has k m.
Proof. unfold Map_has. rewrite Map_get_erase. destruct (Map_get k m); reflexivity. Qed.

Section EraseService.
Variable now : nat -> Z.

Lemma handleCreateOrder_erase st order orderBook :
  handleCreateOrder still (erase_run st) (erase_order order)
                    (erase_book orderBook)
  = erase_run (handleCreateOrder now st order orderBook).
Proof.
  unfold handleCreateOrder. destruct st as [[books engine trades] clk].
  cbn [erase_run erase_service service clock OrderBookService.orderBooks
       OrderBookService.matchingEngine OrderBookService.trades].
  rewrite (matchOrder_erase now).
  cbn [erase_result mr_trades mr_orderBook mr_engine mr_clock
       erase_order Order.amount Order.pair].
  unfold erase_run, erase_service.
  cbn [service clock OrderBookService.orderBooks
       OrderBookService.matchingEngine OrderBookService.trades].
  rewrite map_app. fold (erase_books books).
  destruct (DecimalValue.gt _ _).
  - rewrite addToOrderBook_erase, Map_set_erase. reflexivity.
  - rewrite Map_set_erase. reflexivity.
Qed.

Lemma handleDeleteOrder_erase st order orderBook :
  handleDeleteOrder (erase_run st) (erase_order order) (erase_book orderBook)
  = erase_run (handleDeleteOrder st order orderBook).
Proof.
  unfold handleDeleteOrder. destruct st as [[books engine trades] clk].
  cbn [erase_run erase_service service clock OrderBookService.orderBooks
       OrderBookService.matchingEngine OrderBookService.trades].
  rewrite removeFromOrderBook_erase.
  destruct (removeFromOrderBook order orderBook) as [removed orderBook'].
  unfold erase_run, erase_service.
  cbn [fst snd erase_order Order.pair service clock
       OrderBookService.orderBooks OrderBookService.matchingEngine
       OrderBookService.trades].
  fold (erase_books books). rewrite Map_set_erase. reflexivity.
Qed.

Lemma processOrder_erase st order :
  processOrder still (erase_run st) (erase_order order)
  = erase_run (processOrder now st order).
Proof.
  unfold processOrder.
  change (Order.pair (erase_order order)) with (Order.pair order).
  change (Order.type_op (erase_order order)) with (Order.type_op order).
  change (OrderBookService.orderBooks (service (erase_run st)))
    with (erase_books (OrderBookService.orderBooks (service st))).
  rewrite Map_has_erase.
  set (books := OrderBookService.orderBooks (service st)).
  set (books1 := if Map_has (Order.pair order) books then books
                 else Map_set (Order.pair order)
                        (createOrderBook (Order.pair order)) books).
  replace (if Map_has (Order.pair order) books then erase_books books
           else Map_set (Order.pair order)
                  (createOrderBook (Order.pair order)) (erase_books books))
    with (erase_books books1).
  2: { subst books1. destruct (Map_has _ _); [reflexivity |].
       symmetry.
       apply (Map_set_erase _ (createOrderBook (Order.pair order))). }
  rewrite Map_get_erase.
  set (st1 := mkRun (OrderBookService.mk books1 _ _) _).
  change (mkRun (OrderBookService.mk (erase_books books1) _ _) _)
    with (erase_run st1).
  destruct (Map_get (Order.pair order) books1) as [orderBook|]; simpl;
    [| reflexivity].
  destruct (String.eqb (Order.type_op order) "CREATE");
    [apply handleCreateOrder_erase |].
  destruct (String.eqb (Order.type_op order) "DELETE");
    [apply handleDeleteOrder_erase | reflexivity].
Qed.

Lemma processRawOrder_erase st rawOrder :
  processRawOrder still (erase_run st) rawOrder
  = (erase_run (fst (processRawOrder now st rawOrder)),
     snd (processRawOrder now st rawOrder)).
Proof.
  unfold processRawOrder.
  destruct (validateOrder rawOrder); [reflexivity |].
  cbn [fst snd]. f_equal.
  apply (processOrder_erase (mkRun (service st) (S (clock st)))
           (createOrder rawOrder (now (clock st)))).
Qed.

Lemma processRawOrders_erase rawOrders st :
  processRawOrders still (erase_run st) rawOrders
  = (erase_run (fst (processRawOrders now st rawOrders)),
     snd (processRawOrders now st rawOrders)).
Proof.
  revert st. induction rawOrders as [|rawOrder rest IH]; intros st;
    [reflexivity |].
  cbn [processRawOrders]. rewrite processRawOrder_erase.
  destruct (processRawOrder now st rawOrder) as [st' [e|]];
    cbn [fst snd]; [reflexivity | apply IH].
Qed.
End EraseService.

Lemma serializeSide_erase s :
  serializeSide (erase_side s) = map erase_serialized_entry (serializeSide s).
Proof.
  unfold serializeSide. cbn [erase_side OrderBookSide.prices
    OrderBookSide.priceLevels].
  induction (OrderBookSide.prices s) as [|p ps IH]; [reflexivity |].
  cbn [flat_map]. rewrite map_app, IH. f_equal.
  rewrite lookup_fmap.
  destruct (OrderBookSide.priceLevels s !! _) as [lvl|]; [| reflexivity].
  cbn. rewrite !map_map. reflexivity.
Qed.

Lemma outputs_erase (now : nat -> Z) rawOrders :
  eraseTimestamps (outputs now rawOrders) = outputs still rawOrders.
Proof.
  unfold outputs, eraseTimestamps.
  pose proof (processRawOrders_erase now rawOrders fresh) as Hrun.
  change (erase_run fresh) with fresh in Hrun. rewrite Hrun.
  set (st := fst (processRawOrders now fresh rawOrders)).
  cbn [fst snd erase_run service].
  unfold getSerializedOrderBooks, getSerializedTrades, serializeTrade.
  cbn [erase_service OrderBookService.orderBooks OrderBookService.trades].
  rewrite !map_map. f_equal.
  apply map_ext. intros [k b]. unfold serializeOrderBook.
  cbn [fst snd erase_book OrderBook.pair OrderBook.bids OrderBook.asks].
  rewrite !serializeSide_erase. reflexivity.
Qed.

(** C6, as the code has it.  Two runs of the same batch on fresh services
    produce the same output documents up to the [timestamp] fields, which
    are clock readings: with the timestamps erased, the serialized books
    and the serialized trade log are equal field for field, whatever the
    two clocks read. *)
Theorem outputs_agree_up_to_timestamps (now1 now2 : nat -> Z)
    (rawOrders : list RawOrder.t) :
  eraseTimestamps (outputs now1 rawOrders)
  = eraseTimestamps (outputs now2 rawOrders).
Proof. rewrite !outputs_erase. reflexivity. Qed.

(** C6, as stated, fails: the same single command under two clocks gives
    two different output documents. *)
Lemma outputs_depend_on_clock :
  outputs (fun _ => 0) [buy10] <> outputs (fun _ => 1) [buy10].
Proof.
  intros H. apply (f_equal fst) in H.
  apply (f_equal (map (fun doc => map (fun e => snd e) (fst (snd doc))))) in H.
  vm_compute in H. discriminate H.
Qed.

(** ** Timestamps of promoted orders *)

Section Ingestion.
Variable now : nat -> Z.







End Ingestion.





(** * Further properties of the engine and the service *)

(** ** Invariants of a run *)

Section RunInvariant.
Variable now : nat -> Z.
Variable Inv : Run -> Prop.
Hypothesis valid_step :
  forall st rawOrder,
    validateOrder rawOrder = None -> Inv st ->
    Inv (processOrder now (mkRun (service st) (S (clock st)))
                    (createOrder rawOrder (now (clock st)))).

Lemma processRawOrder_invariant st rawOrder :
  Inv st -> Inv (fst (processRawOrder now st rawOrder)).
Proof.
  intros HI. unfold processRawOrder.
  destruct (validateOrder rawOrder) eqn:Hvalid; simpl; [exact HI |].
  apply valid_step; assumption.
Qed.

Lemma processRawOrders_invariant rawOrders st :
  Inv st -> Inv (fst (processRawOrders now st rawOrders)).
Proof.
  revert st. induction rawOrders as [|rawOrder rest IH]; intros st HI;
    simpl; [exact HI |].
  pose proof (processRawOrder_invariant st rawOrder HI) as Hstep.
  destruct (processRawOrder now st rawOrder) as [st' [e|]]; simpl in *.
  - exact Hstep.
  - apply IH, Hstep.
Qed.
End RunInvariant.

(** What [processOrder] does to the trade log and the engine, whatever the
    command: the log grows by the trades of [matchOrder] on the book of the
    pair for a CREATE and stays as it is otherwise. *)
Lemma processOrder_trades (now : nat -> Z) st order :
  let r := matchOrder now order (bookOf st (Order.pair order))
             (OrderBookService.matchingEngine (service st)) (clock st) in
  (String.eqb (Order.type_op order) "CREATE" = true
   /\ OrderBookService.trades (service (processOrder now st order))
      = OrderBookService.trades (service st) ++ mr_trades r
   /\ OrderBookService.matchingEngine (service (processOrder now st order))
      = mr_engine r)
  \/ (OrderBookService.trades (service (processOrder now st order))
      = OrderBookService.trades (service st)
      /\ OrderBookService.matchingEngine (service (processOrder now st order))
         = OrderBookService.matchingEngine (service st)).
Proof.
  unfold processOrder, bookOf.
  set (books := OrderBookService.orderBooks (service st)).
  set (books1 := if Map_has _ _ then _ else _).
  assert (Hget : Map_get (Order.pair order) books1
                 = Some (match Map_get (Order.pair order) books with
                         | Some orderBook => orderBook
                         | None => createOrderBook (Order.pair order)
                         end)).
  { subst books1. unfold Map_has.
    destruct (Map_get (Order.pair order) books) eqn:Hg; [exact Hg |].
    apply Map_get_set_eq. }
  rewrite Hget.
  destruct (String.eqb (Order.type_op order) "CREATE").
  - left. unfold handleCreateOrder. simpl. repeat split.
  - right. destruct (String.eqb (Order.type_op order) "DELETE"); simpl.
    + unfold handleDeleteOrder. destruct (removeFromOrderBook _ _); simpl.
      split; reflexivity.
    + split; reflexivity.
Qed.

(** ** Trade identifiers *)

Lemma ids_from_app n l1 l2 :
  ids_from n (l1 ++ l2)
  <-> ids_from n l1 /\ ids_from (n + Z.of_nat (length l1)) l2.
Proof.
  revert n. induction l1 as [|t l1 IH]; intros n; simpl.
  - rewrite Z.add_0_r. tauto.
  - rewrite IH.
    replace (n + 1 + Z.of_nat (length l1))
      with (n + Z.pos (Pos.of_succ_nat (length l1))) by lia.
    tauto.
Qed.

Lemma ids_from_seq n l :
  ids_from n l ->
  map Trade.trade_id l = map (fun i => n + Z.of_nat i) (seq 0 (length l)).
Proof.
  revert n. induction l as [|t l IH]; intros n; simpl; [reflexivity |].
  intros [Ht Hl]. rewrite Ht, Z.add_0_r. f_equal.
  rewrite (IH _ Hl), <- seq_shift, map_map.
  apply map_ext. intros i. lia.
Qed.

Section TradeIds.
Variable now : nat -> Z.

Lemma matchAtPriceLevel_ids order priceLevel pair engine clock :
  let r := matchAtPriceLevel now order priceLevel pair engine clock in
  ids_from (MatchingEngine.nextTradeId engine) (fs_trades r)
  /\ MatchingEngine.nextTradeId (fs_engine r)
     = MatchingEngine.nextTradeId engine + Z.of_nat (length (fs_trades r)).
Proof.
  unfold matchAtPriceLevel, matchAtPriceLevel_loop.
  apply (while_invariant _ _ _ _
           (fun s =>
              ids_from (MatchingEngine.nextTradeId engine) (fs_trades s)
              /\ MatchingEngine.nextTradeId (fs_engine s)
                 = MatchingEngine.nextTradeId engine
                   + Z.of_nat (length (fs_trades s)))).
  - intros s _ [Hids Hnext]. unfold fill_body.
    destruct (PriceLevel.orders (fs_level s)); [split; assumption |].
    cbn [fs_trades fs_engine MatchingEngine.nextTradeId].
    rewrite ids_from_app, length_app. simpl. split; [| lia].
    split; [exact Hids |]. split; [exact Hnext | exact I].
  - simpl. split; [exact I | lia].
Qed.

Lemma match_body_ids order pair n0 s :
  ids_from n0 (ms_trades s)
  /\ MatchingEngine.nextTradeId (ms_engine s)
     = n0 + Z.of_nat (length (ms_trades s)) ->
  ids_from n0 (ms_trades (match_body now order pair s))
  /\ MatchingEngine.nextTradeId (ms_engine (match_body now order pair s))
     = n0 + Z.of_nat (length (ms_trades (match_body now order pair s))).
Proof.
  intros [Hids Hnext]. unfold match_body.
  destruct (ms_pricesToMatch s); [split; assumption |].
  destruct (negb _); [split; assumption |].
  destruct (ms_priceLevels s !! _) as [lvl|]; [| split; assumption].
  case_bool_decide; [split; assumption |].
  pose proof (matchAtPriceLevel_ids (ms_remainingOrder s) lvl pair
                (ms_engine s) (ms_clock s)) as [Hfill Hn].
  case_bool_decide; cbn [ms_trades ms_engine];
    rewrite ids_from_app, length_app, <- Hnext; (split; [split; assumption | lia]).
Qed.

Lemma matchOrder_ids order orderBook engine clock :
  let r := matchOrder now order orderBook engine clock in
  ids_from (MatchingEngine.nextTradeId engine) (mr_trades r)
  /\ MatchingEngine.nextTradeId (mr_engine r)
     = MatchingEngine.nextTradeId engine + Z.of_nat (length (mr_trades r)).
Proof.
  unfold matchOrder. case_bool_decide; simpl; [split; [exact I | lia] |].
  unfold matchOrder_loop.
  apply (while_invariant _ _ _ _
           (fun s =>
              ids_from (MatchingEngine.nextTradeId engine) (ms_trades s)
              /\ MatchingEngine.nextTradeId (ms_engine s)
                 = MatchingEngine.nextTradeId engine
                   + Z.of_nat (length (ms_trades s)))).
  - intros s _. apply match_body_ids.
  - simpl. split; [exact I | lia].
Qed.

Lemma processOrder_ids st order :
  ids_in_step st -> ids_in_step (processOrder now st order).
Proof.
  intros [Hids Hnext]. unfold ids_in_step.
  destruct (processOrder_trades now st order)
    as [(_ & Ht & He) | (Ht & He)]; rewrite Ht, He.
  - pose proof (matchOrder_ids order (bookOf st (Order.pair order))
                  (OrderBookService.matchingEngine (service st)) (clock st))
      as [Hm Hn].
    rewrite ids_from_app, length_app, Hn, Hnext. rewrite Hnext in Hm.
    split; [split; assumption | lia].
  - split; assumption.
Qed.
End TradeIds.

(** X1.  The trade log of a run that starts from a fresh service is
    numbered 1, 2, 3, ... in the order the trades were emitted, and the
    engine's next identifier is one more than the number of trades. *)
Theorem trade_ids_count_from_one (now : nat -> Z) (rawOrders : list RawOrder.t) :
  let svc := service (fst (processRawOrders now fresh rawOrders)) in
  map Trade.trade_id (OrderBookService.trades svc)
  = map Z.of_nat (seq 1 (length (OrderBookService.trades svc)))
  /\ MatchingEngine.nextTradeId (OrderBookService.matchingEngine svc)
     = 1 + Z.of_nat (length (OrderBookService.trades svc)).
Proof.
  intros svc.
  assert (H : ids_in_step (fst (processRawOrders now fresh rawOrders))).
  { apply processRawOrders_invariant.
    - intros st rawOrder _ HI. apply processOrder_ids. exact HI.
    - split; [exact I | reflexivity]. }
  destruct H as [Hids Hnext]. fold svc in Hids, Hnext.
  split; [| exact Hnext].
  rewrite (ids_from_seq _ _ Hids), <- seq_shift, map_map.
  apply map_ext. intros i. lia.
Qed.

(** ** Well-formed books *)

Instance flip_Qcle_total : Total (flip Qcle).
Proof. intros x y. destruct (Qc_le_total y x); [left | right]; assumption. Qed.

Instance flip_Qcle_transitive : Transitive (flip Qcle).
Proof. intros x y z Hxy Hyz. unfold flip in *. etransitivity; eassumption. Qed.

Instance flip_Qcle_antisymm : AntiSymm (=) (flip Qcle).
Proof. intros x y Hxy Hyx. apply Qcle_antisym; assumption. Qed.

Instance Qcle_antisymm : AntiSymm (=) Qcle.
Proof. intros x y Hxy Hyx. apply Qcle_antisym; assumption. Qed.

Lemma priceOrder_cases side :
  (priceOrder side = flip Qcle \/ priceOrder side = Qcle)
  /\ (oppositeOrder side = flip Qcle \/ oppositeOrder side = Qcle).
Proof.
  unfold priceOrder, oppositeOrder. destruct (String.eqb side "BUY"); auto.
Qed.

Lemma sortPrices_sorted side l : StronglySorted (priceOrder side) (sortPrices side l).
Proof.
  unfold priceOrder, sortPrices. destruct (String.eqb side "BUY");
    apply StronglySorted_merge_sort; apply _.
Qed.

Lemma sortPrices_permutation side l : sortPrices side l ≡ₚ l.
Proof.
  unfold sortPrices. destruct (String.eqb side "BUY");
    apply merge_sort_Permutation.
Qed.

Lemma book_wf_own b side :
  book_wf b -> side_wf (priceOrder side) (getOrderBookSide b side).
Proof.
  unfold priceOrder, getOrderBookSide. intros [Hb Ha].
  destruct (String.eqb side "BUY"); assumption.
Qed.

Lemma book_wf_opposite b side :
  book_wf b -> side_wf (oppositeOrder side) (oppositeSideOf b side).
Proof.
  unfold oppositeOrder, oppositeSideOf. intros [Hb Ha].
  destruct (String.eqb side "BUY"); assumption.
Qed.

Lemma book_wf_set b side s :
  book_wf b -> side_wf (priceOrder side) s ->
  book_wf (setOrderBookSide b side s).
Proof.
  unfold priceOrder, setOrderBookSide. intros [Hb Ha] Hs.
  destruct (String.eqb side "BUY"); split; assumption.
Qed.

Lemma book_wf_set_opposite b side s :
  book_wf b -> side_wf (oppositeOrder side) s ->
  book_wf (setOppositeSide b side s).
Proof.
  unfold oppositeOrder, setOppositeSide. intros [Hb Ha] Hs.
  destruct (String.eqb side "BUY"); split; assumption.
Qed.

Lemma book_wf_createOrderBook pair : book_wf (createOrderBook pair).
Proof.
  split; (split; [apply map_Forall_empty |]);
    (split; [constructor |]); intros k [l Hl];
    simpl in Hl; rewrite lookup_empty in Hl; discriminate.
Qed.

Section WellFormed.
Variable now : nat -> Z.

(** A fill keeps the level in order: what leaves the head leaves the total
    volume, and a head that stays keeps a positive amount. *)
Lemma fill_body_level_ok pair k s :
  level_ok k (fs_level s) -> level_ok k (fs_level (fill_body now pair s)).
Proof.
  unfold level_ok, fill_body.
  destruct s as [o [p [|m rest] tv] ts e c];
    cbn [fs_level PriceLevel.orders PriceLevel.price PriceLevel.totalVolume];
    [auto |].
  intros (Hp & Hall & Htv). apply Forall_cons in Hall as [[Hlim Hm] Hrest].
  split; [exact Hp |].
  unfold level_volume in *. cbn [PriceLevel.orders map] in *.
  rewrite sumQc_cons in Htv.
  destruct (DecimalValue.isZero _ || DecimalValue.lt _ _) eqn:Hsh.
  - split; [exact Hrest |].
    apply orb_prop in Hsh. revert Hsh. clear - Htv Hm.
    dec_cases; intros [?|?]; try discriminate; qc_lra.
  - cbn [map OrderBookEntry.amount OrderBookEntry.set_amount]. split.
    + constructor; [| exact Hrest].
      cbn [OrderBookEntry.limit_price OrderBookEntry.amount
           OrderBookEntry.set_amount].
      split; [exact Hlim |].
      apply orb_false_elim in Hsh as [Hz Hlt].
      revert Hz Hlt. clear. dec_cases; intros; try discriminate; qc_lra.
    + rewrite sumQc_cons. clear - Htv. dec_cases; qc_lra.
Qed.

Lemma matchAtPriceLevel_level_ok order priceLevel pair engine clock k :
  level_ok k priceLevel ->
  level_ok k (fs_level (matchAtPriceLevel now order priceLevel pair engine clock)).
Proof.
  intros Hok. unfold matchAtPriceLevel, matchAtPriceLevel_loop.
  apply (while_invariant _ _ _ _ (fun s => level_ok k (fs_level s)));
    [| exact Hok].
  intros s _. apply fill_body_level_ok.
Qed.

Lemma match_body_levels order pair (prices0 : list DecimalValue.t) s :
  map_Forall level_wf (ms_priceLevels s)
  /\ (forall k, is_Some (ms_priceLevels s !! k) -> k ∈ prices0) ->
  map_Forall level_wf (ms_priceLevels (match_body now order pair s))
  /\ (forall k, is_Some (ms_priceLevels (match_body now order pair s) !! k) ->
                k ∈ prices0).
Proof.
  intros [Hwf Hkeys]. unfold match_body.
  destruct s as [o lv [|p ps] ts e c b]; simpl in *; [auto |].
  destruct (negb _); simpl; [auto |].
  destruct (lv !! _) as [lvl|] eqn:Hlvl; simpl; [| auto].
  case_bool_decide; simpl; [auto |].
  case_bool_decide as Hlen; simpl.
  - split; [apply map_Forall_delete, Hwf |].
    intros k [l Hl]. apply lookup_delete_Some in Hl as [_ Hl]. eauto.
  - split.
    + apply map_Forall_insert_2; [| exact Hwf]. split.
      * apply matchAtPriceLevel_level_ok. exact (proj1 (Hwf _ _ Hlvl)).
      * intros Hnil. apply Hlen. rewrite Hnil. reflexivity.
    + intros k [l Hl]. apply lookup_insert_Some in Hl as [[<- _] | [_ Hl]];
        eauto.
Qed.

Lemma matchOrder_wf order orderBook engine clock :
  book_wf orderBook ->
  book_wf (mr_orderBook (matchOrder now order orderBook engine clock)).
Proof.
  intros Hwf. unfold matchOrder. case_bool_decide; simpl; [exact Hwf |].
  apply book_wf_set_opposite; [exact Hwf |].
  destruct (book_wf_opposite _ (Order.side order) Hwf) as (Hlv & Hsorted & Hkeys).
  unfold matchOrder_loop.
  pose proof (while_invariant _ _ _
                (match_body_decreases now order (OrderBook.pair orderBook))
                (fun s =>
                   map_Forall level_wf (ms_priceLevels s)
                   /\ (forall k, is_Some (ms_priceLevels s !! k) ->
                         k ∈ OrderBookSide.prices
                               (oppositeSideOf orderBook (Order.side order))))
                (fun s _ => match_body_levels order (OrderBook.pair orderBook) _ s))
    as Hloop.
  split; [| split]; simpl; [| exact Hsorted |]; apply Hloop; simpl; auto.
Qed.
End WellFormed.

Lemma elem_of_removeFirst p l x : x ∈ removeFirst p l -> x ∈ l.
Proof.
  induction l as [|y l IH]; simpl; [auto |].
  destruct (decide (y = p)); rewrite ?elem_of_cons; intuition.
Qed.

Lemma elem_of_removeFirst_ne p l x : x <> p -> x ∈ l -> x ∈ removeFirst p l.
Proof.
  intros Hne. induction l as [|y l IH]; simpl; [auto |].
  destruct (decide (y = p)) as [-> | Hy]; rewrite !elem_of_cons;
    intuition congruence.
Qed.

Lemma removeFirst_sorted (R : relation Qc) p l :
  StronglySorted R l -> StronglySorted R (removeFirst p l).
Proof.
  induction 1 as [|y l Hl IH Hy]; simpl; [constructor |].
  destruct (decide _); [exact Hl |].
  constructor; [exact IH |].
  apply Forall_forall. intros x Hx. rewrite Forall_forall in Hy.
  apply Hy, (elem_of_removeFirst p), Hx.
Qed.

(** The outcomes of [removeFromOrderBook], by what the scan of the level
    finds. *)
Lemma removeFromOrderBook_cases order orderBook :
  let side := getOrderBookSide orderBook (Order.side order) in
  let key := DecimalValue.toString (Order.limit_price order) in
  removeFromOrderBook order orderBook = (false, orderBook)
  \/ exists priceLevel before e after,
       OrderBookSide.priceLevels side !! key = Some priceLevel
       /\ PriceLevel.orders priceLevel = before ++ e :: after
       /\ Forall (fun o => OrderBookEntry.order_id o <> Order.order_id order)
                 before
       /\ OrderBookEntry.order_id e = Order.order_id order
       /\ removeFromOrderBook order orderBook
          = (true,
             setOrderBookSide orderBook (Order.side order)
               (if decide (before ++ after = [])
                then OrderBookSide.mk
                       (delete key (OrderBookSide.priceLevels side))
                       (removeFirst key (OrderBookSide.prices side))
                else OrderBookSide.mk
                       (<[key :=
                            PriceLevel.mk (PriceLevel.price priceLevel)
                              (before ++ after)
                              (DecimalValue.minus
                                 (PriceLevel.totalVolume priceLevel)
                                 (OrderBookEntry.amount e))]>
                          (OrderBookSide.priceLevels side))
                       (OrderBookSide.prices side))).
Proof.
  intros side key.
  destruct (OrderBookSide.priceLevels side !! key) as [lvl|] eqn:Hlvl.
  2: { left. apply removeFromOrderBook_no_level. exact Hlvl. }
  destruct (findIndex
              (fun o => String.eqb (OrderBookEntry.order_id o)
                                   (Order.order_id order))
              (PriceLevel.orders lvl)) as [i|] eqn:Hfind.
  - right.
    apply findIndex_Some in Hfind
      as (before & e & after & Horders & _ & Hbefore & He).
    assert (Hb : Forall (fun o => OrderBookEntry.order_id o
                                  <> Order.order_id order) before).
    { eapply Forall_impl; [exact Hbefore |].
      intros o Ho. apply String.eqb_neq, Ho. }
    apply String.eqb_eq in He.
    exists lvl, before, e, after. split; [reflexivity |].
    repeat (split; [assumption |]).
    apply (removeFromOrderBook_found order orderBook lvl before e after);
      assumption.
  - left. apply (removeFromOrderBook_no_entry order orderBook lvl Hlvl).
    unfold findIndex in Hfind.
    destruct (list_find _ _) as [[j y]|] eqn:Hlf; [discriminate |].
    apply list_find_None in Hlf. eapply Forall_impl; [exact Hlf |].
    intros o Ho Heq. apply Ho. apply String.eqb_eq, Heq.
Qed.

(** Resting an order keeps the book in order: the level of its price gains
    one entry at that price, and a new price is sorted into [prices]. *)
Lemma addToOrderBook_wf order orderBook :
  (0 < Order.amount order)%Qc ->
  book_wf orderBook -> book_wf (addToOrderBook order orderBook).
Proof.
  intros Hamt Hwf. unfold addToOrderBook.
  apply book_wf_set; [exact Hwf |].
  destruct (book_wf_own _ (Order.side order) Hwf) as (Hlv & Hsorted & Hkeys).
  set (side := getOrderBookSide orderBook (Order.side order)) in *.
  set (key := DecimalValue.toString (Order.limit_price order)).
  destruct (OrderBookSide.priceLevels side !! key) as [lvl|] eqn:Hlvl; simpl.
  - rewrite Hlvl. simpl.
    destruct (Hlv _ _ Hlvl) as [(Hp & Hall & Htv) _].
    split; [| split]; simpl; [| exact Hsorted |].
    + apply map_Forall_insert_2; [| exact Hlv]. split.
      * split; [exact Hp |]. simpl. split.
        -- apply Forall_app. split; [exact Hall |].
           repeat constructor. exact Hamt.
        -- unfold level_volume in *. simpl.
           rewrite map_app, sumQc_app, <- Htv. simpl.
           unfold sumQc. simpl. clear. qc_lra.
      * simpl. intros Hnil. apply app_eq_nil in Hnil as [_ Hnil].
        discriminate.
    + intros k Hk. apply lookup_insert_is_Some' in Hk as [<- | Hk];
        [apply Hkeys; eauto | apply Hkeys, Hk].
  - rewrite lookup_insert_eq. simpl. rewrite insert_insert_eq.
    split; [| split]; simpl; [| apply sortPrices_sorted |].
    + apply map_Forall_insert_2; [| exact Hlv]. split.
      * split; [reflexivity |]. simpl. split.
        -- repeat constructor. exact Hamt.
        -- unfold level_volume, sumQc. simpl. clear. qc_lra.
      * discriminate.
    + intros k Hk. rewrite sortPrices_permutation, elem_of_app.
      apply lookup_insert_is_Some' in Hk as [<- | Hk];
        [right; left | left; apply Hkeys, Hk].
Qed.

(** A removal keeps the book in order: the level loses one entry and its
    amount, and an emptied level leaves the map together with its price. *)
Lemma removeFromOrderBook_wf order orderBook :
  book_wf orderBook -> book_wf (snd (removeFromOrderBook order orderBook)).
Proof.
  intros Hwf.
  destruct (removeFromOrderBook_cases order orderBook)
    as [-> | (lvl & before & e & after & Hlvl & Horders & _ & _ & ->)];
    [exact Hwf |].
  simpl. apply book_wf_set; [exact Hwf |].
  destruct (book_wf_own _ (Order.side order) Hwf) as (Hlv & Hsorted & Hkeys).
  set (side := getOrderBookSide orderBook (Order.side order)) in *.
  set (key := DecimalValue.toString (Order.limit_price order)) in *.
  destruct (decide (before ++ after = [])) as [Hnil | Hnil].
  - split; [| split]; simpl.
    + apply map_Forall_delete, Hlv.
    + apply removeFirst_sorted, Hsorted.
    + intros k [l Hl]. apply lookup_delete_Some in Hl as [Hne Hl].
      apply elem_of_removeFirst_ne; [congruence | apply Hkeys; eauto].
  - destruct (Hlv _ _ Hlvl) as [(Hp & Hall & Htv) _].
    split; [| split]; simpl; [| exact Hsorted |].
    + apply map_Forall_insert_2; [| exact Hlv]. split; [| exact Hnil].
      split; [exact Hp |]. simpl. rewrite Horders in Hall.
      apply Forall_app in Hall as [Hb Ha].
      apply Forall_cons in Ha as [_ Ha]. split.
      * apply Forall_app. split; assumption.
      * pose proof (level_volume_split lvl before e after Horders) as Hsplit.
        unfold level_volume at 1. simpl. rewrite Htv.
        clear - Hsplit. qc_lra.
    + intros k Hk. apply lookup_insert_is_Some' in Hk as [<- | Hk];
        [apply Hkeys; eauto | apply Hkeys, Hk].
Qed.

(** ** Invariants of the books of a run *)

(** A property of books that the empty book has and that matching, resting a
    positive amount and removing keep, holds of every book of the service
    after every command, hence after every run. *)
Section BookInvariant.
Variable now : nat -> Z.
Variable P : OrderBook.t -> Prop.
Hypothesis P_create : forall pair, P (createOrderBook pair).
Hypothesis P_match :
  forall order orderBook engine clock,
    P orderBook -> P (mr_orderBook (matchOrder now order orderBook engine clock)).
Hypothesis P_add :
  forall order orderBook,
    (0 < Order.amount order)%Qc -> P orderBook ->
    P (addToOrderBook order orderBook).
Hypothesis P_remove :
  forall order orderBook,
    P orderBook -> P (snd (removeFromOrderBook order orderBook)).

Lemma processOrder_books st order :
  Map_Forall P (OrderBookService.orderBooks (service st)) ->
  Map_Forall P (OrderBookService.orderBooks (service (processOrder now st order))).
Proof.
  intros HP. unfold processOrder.
  set (books1 := if Map_has _ _ then _ else _).
  assert (Hbooks1 : Map_Forall P books1).
  { subst books1. destruct (Map_has _ _); [exact HP |].
    apply Map_Forall_set; [exact HP | apply P_create]. }
  destruct (Map_get _ books1) as [orderBook|] eqn:Hget; [| exact Hbooks1].
  pose proof (Map_Forall_get _ _ _ _ Hbooks1 Hget) as Hbook.
  destruct (String.eqb _ "CREATE").
  - unfold handleCreateOrder. simpl.
    apply Map_Forall_set; [exact Hbooks1 |].
    pose proof (P_match order orderBook
                  (OrderBookService.matchingEngine (service st)) (clock st)
                  Hbook) as Hm.
    unfold DecimalValue.gt. case_bool_decide as Hgt; [| exact Hm].
    apply P_add; [| exact Hm].
    revert Hgt. dec_unfold. intros; qc_lra.
  - destruct (String.eqb _ "DELETE"); [| exact Hbooks1].
    unfold handleDeleteOrder.
    pose proof (P_remove order orderBook Hbook) as Hr.
    destruct (removeFromOrderBook order orderBook) as [removed orderBook'].
    simpl in *. apply Map_Forall_set; [exact Hbooks1 | exact Hr].
Qed.

Lemma processRawOrders_books rawOrders :
  Map_Forall P
    (OrderBookService.orderBooks
       (service (fst (processRawOrders now fresh rawOrders)))).
Proof.
  apply (processRawOrders_invariant now
           (fun st => Map_Forall P (OrderBookService.orderBooks (service st)))).
  - intros st rawOrder _ HP. apply processOrder_books. exact HP.
  - constructor.
Qed.
End BookInvariant.

Lemma processRawOrders_wf now rawOrders :
  Map_Forall book_wf
    (OrderBookService.orderBooks
       (service (fst (processRawOrders now fresh rawOrders)))).
Proof.
  apply processRawOrders_books.
  - apply book_wf_createOrderBook.
  - apply matchOrder_wf.
  - apply addToOrderBook_wf.
  - apply removeFromOrderBook_wf.
Qed.

Lemma Map_Forall_impl {V : Type} (P Q : V -> Prop) m :
  Map_Forall P m -> (forall v, P v -> Q v) -> Map_Forall Q m.
Proof.
  intros Hm HPQ. unfold Map_Forall in *. eapply Forall_impl; [exact Hm |].
  intros [k v]. simpl. apply HPQ.
Qed.


(** X3.  After any run, the [prices] of every book are sorted best first:
    the bids from the highest price down, the asks from the lowest price
    up. *)
Theorem prices_stay_sorted (now : nat -> Z) (rawOrders : list RawOrder.t) :
  Map_Forall
    (fun orderBook =>
       StronglySorted (fun p q => (q <= p)%Qc)
                      (OrderBookSide.prices (OrderBook.bids orderBook))
       /\ StronglySorted (fun p q => (p <= q)%Qc)
                         (OrderBookSide.prices (OrderBook.asks orderBook)))
    (OrderBookService.orderBooks
       (service (fst (processRawOrders now fresh rawOrders)))).
Proof.
  eapply Map_Forall_impl; [apply processRawOrders_wf |].
  intros orderBook [(_ & Hb & _) (_ & Ha & _)]. split; assumption.
Qed.

(** X4.  After any run, the price of every level of a side is listed in the
    [prices] of that side, so [serializeOrderBook], which walks [prices],
    reaches every level. *)
Theorem level_prices_are_listed (now : nat -> Z) (rawOrders : list RawOrder.t) :
  Map_Forall
    (fun orderBook =>
       forall side key,
         is_Some (OrderBookSide.priceLevels (getOrderBookSide orderBook side)
                  !! key) ->
         key ∈ OrderBookSide.prices (getOrderBookSide orderBook side))
    (OrderBookService.orderBooks
       (service (fst (processRawOrders now fresh rawOrders)))).
Proof.
  eapply Map_Forall_impl; [apply processRawOrders_wf |].
  intros orderBook Hwf side key.
  destruct (book_wf_own _ side Hwf) as (_ & _ & Hkeys). apply Hkeys.
Qed.

(** ** The trades of a match *)

Section Trades.
Variable now : nat -> Z.

(** A fill at a level in order emits a trade of a positive amount at the
    price of the level, naming the taker. *)
Lemma fill_body_trades order pair key s :
  fill_cond s = true ->
  Order.order_id (fs_order s) = Order.order_id order
  /\ Order.account_id (fs_order s) = Order.account_id order
  /\ level_ok key (fs_level s)
  /\ Forall (trade_of order pair key) (fs_trades s) ->
  Order.order_id (fs_order (fill_body now pair s)) = Order.order_id order
  /\ Order.account_id (fs_order (fill_body now pair s)) = Order.account_id order
  /\ level_ok key (fs_level (fill_body now pair s))
  /\ Forall (trade_of order pair key) (fs_trades (fill_body now pair s)).
Proof.
  intros Hc (Hid & Hacc & Hok & Hts).
  split; [| split; [| split; [apply fill_body_level_ok, Hok |]]];
    revert Hc; unfold fill_cond, fill_body;
    destruct s as [o [p [|m rest] tv] ts e c]; simpl in *; auto.
  intros Hc. apply andb_prop in Hc as [Hgt _].
  apply Forall_app. split; [exact Hts |]. repeat constructor; simpl; auto.
  - exact (proj1 Hok).
  - destruct Hok as (_ & Hall & _). apply Forall_cons in Hall as [[_ Hm] _].
    revert Hgt. clear - Hm. dec_cases; intros; try discriminate; qc_lra.
Qed.

Lemma matchAtPriceLevel_trades order priceLevel pair engine clock key :
  level_ok key priceLevel ->
  let r := matchAtPriceLevel now order priceLevel pair engine clock in
  Order.order_id (fs_order r) = Order.order_id order
  /\ Order.account_id (fs_order r) = Order.account_id order
  /\ level_ok key (fs_level r)
  /\ Forall (trade_of order pair key) (fs_trades r).
Proof.
  intros Hok. unfold matchAtPriceLevel, matchAtPriceLevel_loop.
  apply (while_invariant _ _ _ _
           (fun s =>
              Order.order_id (fs_order s) = Order.order_id order
              /\ Order.account_id (fs_order s) = Order.account_id order
              /\ level_ok key (fs_level s)
              /\ Forall (trade_of order pair key) (fs_trades s))).
  - intros s. apply fill_body_trades.
  - simpl. repeat split; try apply Hok. constructor.
Qed.

(** Every trade of a step of [matchOrder] is made at a price that passed
    the test [priceIsCompatible]. *)
Lemma match_body_trades order pair s :
  Order.order_id (ms_remainingOrder s) = Order.order_id order
  /\ Order.account_id (ms_remainingOrder s) = Order.account_id order
  /\ map_Forall level_wf (ms_priceLevels s)
  /\ Forall (fun t => trade_of order pair (Trade.price t) t
                      /\ priceIsCompatible order (Trade.price t) = true)
            (ms_trades s) ->
  let s' := match_body now order pair s in
  Order.order_id (ms_remainingOrder s') = Order.order_id order
  /\ Order.account_id (ms_remainingOrder s') = Order.account_id order
  /\ map_Forall level_wf (ms_priceLevels s')
  /\ Forall (fun t => trade_of order pair (Trade.price t) t
                      /\ priceIsCompatible order (Trade.price t) = true)
            (ms_trades s').
Proof.
  intros (Hid & Hacc & Hwf & Hts). cbv zeta. unfold match_body.
  destruct s as [o lv [|p ps] ts e c b]; simpl in *; [auto |].
  destruct (negb _) eqn:Hcompat; simpl; [auto |].
  apply negb_false_iff in Hcompat.
  destruct (lv !! _) as [lvl|] eqn:Hlvl; simpl; [| auto].
  case_bool_decide; simpl; [auto |].
  pose proof (matchAtPriceLevel_trades o lvl pair e c _
                (proj1 (Hwf _ _ Hlvl))) as (Hid' & Hacc' & Hok' & Hts').
  assert (Hnew : Forall (fun t => trade_of order pair (Trade.price t) t
                                  /\ priceIsCompatible order (Trade.price t) = true)
                        (ts ++ fs_trades (matchAtPriceLevel now o lvl pair e c))).
  { apply Forall_app. split; [exact Hts |].
    eapply Forall_impl; [exact Hts' |].
    intros t (Hp & Ht & Ha & Hprice & Hamt).
    unfold trade_of. rewrite Hprice.
    repeat split; try congruence. exact Hcompat. }
  case_bool_decide as Hlen; simpl.
  - split; [congruence | split; [congruence | split; [| exact Hnew]]].
    apply map_Forall_delete, Hwf.
  - split; [congruence | split; [congruence | split; [| exact Hnew]]].
    apply map_Forall_insert_2; [| exact Hwf]. split; [exact Hok' |].
    intros Hnil. apply Hlen. rewrite Hnil. reflexivity.
Qed.

Lemma matchOrder_trades order orderBook engine clock :
  map_Forall level_wf
    (OrderBookSide.priceLevels (oppositeSideOf orderBook (Order.side order))) ->
  Forall (fun t => trade_of order (OrderBook.pair orderBook) (Trade.price t) t
                   /\ priceIsCompatible order (Trade.price t) = true)
         (mr_trades (matchOrder now order orderBook engine clock)).
Proof.
  intros Hwf. unfold matchOrder. case_bool_decide; simpl; [constructor |].
  unfold matchOrder_loop.
  refine (proj2 (proj2 (proj2
    (while_invariant _ _ _
       (match_body_decreases now order (OrderBook.pair orderBook))
       (fun s =>
          Order.order_id (ms_remainingOrder s) = Order.order_id order
          /\ Order.account_id (ms_remainingOrder s) = Order.account_id order
          /\ map_Forall level_wf (ms_priceLevels s)
          /\ Forall (fun t =>
                       trade_of order (OrderBook.pair orderBook)
                                (Trade.price t) t
                       /\ priceIsCompatible order (Trade.price t) = true)
                    (ms_trades s))
       (fun s _ => match_body_trades order (OrderBook.pair orderBook) s)
       _ _)))).
  simpl. auto.
Qed.
End Trades.

(** ** The map of books *)

Lemma matchOrder_pair now order orderBook engine clock :
  OrderBook.pair (mr_orderBook (matchOrder now order orderBook engine clock))
  = OrderBook.pair orderBook.
Proof.
  unfold matchOrder, setOppositeSide. case_bool_decide; simpl; [reflexivity |].
  destruct (String.eqb _ "BUY"); reflexivity.
Qed.

Lemma addToOrderBook_pair order orderBook :
  OrderBook.pair (addToOrderBook order orderBook) = OrderBook.pair orderBook.
Proof.
  unfold addToOrderBook, setOrderBookSide.
  destruct (String.eqb _ "BUY"); reflexivity.
Qed.

Lemma removeFromOrderBook_pair order orderBook :
  OrderBook.pair (snd (removeFromOrderBook order orderBook))
  = OrderBook.pair orderBook.
Proof.
  destruct (removeFromOrderBook_cases order orderBook)
    as [-> | (lvl & before & e & after & _ & _ & _ & _ & ->)];
    [reflexivity |].
  unfold setOrderBookSide. simpl. destruct (String.eqb _ "BUY"); reflexivity.
Qed.

Lemma Map_set_keys {V : Type} k (v : V) m k' :
  k' ∈ map fst (Map_set k v m) -> k' = k \/ k' ∈ map fst m.
Proof.
  induction m as [|[k0 v0] m IH]; simpl.
  - rewrite elem_of_cons. intros [-> | Hin]; auto.
  - destruct (String.eqb k0 k) eqn:Hk; simpl; rewrite !elem_of_cons.
    + intros [-> | Hin]; auto.
    + intros [-> | Hin]; [auto |]. destruct (IH Hin); auto.
Qed.

Lemma Map_set_filed k v m :
  filed m -> OrderBook.pair v = k -> filed (Map_set k v m).
Proof.
  intros [Hall Hnd] Hv. induction m as [|[k0 v0] m IH]; simpl in *.
  - split; repeat constructor; [exact Hv | apply not_elem_of_nil].
  - apply Forall_cons in Hall as [Hv0 Hall].
    apply NoDup_cons in Hnd as [Hk0 Hnd].
    destruct (IH Hall Hnd) as [IHall IHnd].
    destruct (String.eqb k0 k) eqn:Hk; simpl.
    + apply String.eqb_eq in Hk as ->.
      split; [constructor; assumption | constructor; assumption].
    + split; [constructor; assumption |].
      constructor; [| exact IHnd].
      intros Hin. apply Map_set_keys in Hin as [Heq | Hin]; [| auto].
      simpl in Heq. subst k0. rewrite String.eqb_refl in Hk. discriminate.
Qed.

Lemma Map_get_filed k m v :
  filed m -> Map_get k m = Some v -> OrderBook.pair v = k.
Proof.
  intros [Hall _]. induction Hall as [|[k0 v0] m Hv0 _ IH]; simpl;
    [discriminate |].
  destruct (String.eqb k0 k) eqn:Hk; [| exact IH].
  apply String.eqb_eq in Hk as ->. intros [= <-]. exact Hv0.
Qed.

Lemma bookOf_pair st pair :
  filed (OrderBookService.orderBooks (service st)) ->
  OrderBook.pair (bookOf st pair) = pair.
Proof.
  intros Hf. unfold bookOf.
  destruct (Map_get _ _) as [orderBook|] eqn:Hget; [| reflexivity].
  exact (Map_get_filed _ _ _ Hf Hget).
Qed.

Lemma processOrder_filed now st order :
  filed (OrderBookService.orderBooks (service st)) ->
  filed (OrderBookService.orderBooks (service (processOrder now st order))).
Proof.
  intros Hf. unfold processOrder.
  set (books1 := if Map_has _ _ then _ else _).
  assert (Hbooks1 : filed books1).
  { subst books1. destruct (Map_has _ _); [exact Hf |].
    apply Map_set_filed; [exact Hf | reflexivity]. }
  destruct (Map_get _ books1) as [orderBook|] eqn:Hget; [| exact Hbooks1].
  pose proof (Map_get_filed _ _ _ Hbooks1 Hget) as Hbook.
  destruct (String.eqb _ "CREATE").
  - unfold handleCreateOrder. simpl.
    apply Map_set_filed; [exact Hbooks1 |].
    destruct (DecimalValue.gt _ _);
      rewrite ?addToOrderBook_pair, matchOrder_pair; exact Hbook.
  - destruct (String.eqb _ "DELETE"); [| exact Hbooks1].
    unfold handleDeleteOrder.
    pose proof (removeFromOrderBook_pair order orderBook) as Hr.
    destruct (removeFromOrderBook order orderBook) as [removed orderBook'].
    simpl in *. apply Map_set_filed; [exact Hbooks1 | congruence].
Qed.

Lemma processRawOrders_filed now rawOrders st :
  filed (OrderBookService.orderBooks (service st)) ->
  filed (OrderBookService.orderBooks
           (service (fst (processRawOrders now st rawOrders)))).
Proof.
  apply (processRawOrders_invariant now
           (fun st => filed (OrderBookService.orderBooks (service st)))).
  intros st' rawOrder _ Hf. apply processOrder_filed. exact Hf.
Qed.

Lemma filed_fresh : filed (OrderBookService.orderBooks (service fresh)).
Proof. split; constructor. Qed.

(** X5.  After any run every book of the service is filed under its own
    pair and no pair is filed twice, so the documents that
    [getSerializedOrderBooks] merges by pair do not overwrite each other. *)
Theorem books_are_filed_under_their_pair (now : nat -> Z)
    (rawOrders : list RawOrder.t) :
  let books :=
    OrderBookService.orderBooks
      (service (fst (processRawOrders now fresh rawOrders))) in
  Forall (fun kv => OrderBook.pair (snd kv) = fst kv) books
  /\ NoDup (map fst books).
Proof. apply (processRawOrders_filed now rawOrders fresh), filed_fresh. Qed.

(** ** Sound states *)

Section Sound.
Variable now : nat -> Z.

Lemma sound_fresh : sound fresh.
Proof. split; [constructor | apply filed_fresh]. Qed.

Lemma processOrder_sound st order :
  sound st -> sound (processOrder now st order).
Proof.
  intros [Hwf Hf]. split; [| apply processOrder_filed, Hf].
  apply (processOrder_books now book_wf); auto using
    book_wf_createOrderBook, matchOrder_wf, addToOrderBook_wf,
    removeFromOrderBook_wf.
Qed.

Lemma processRawOrders_sound rawOrders st :
  sound st -> sound (fst (processRawOrders now st rawOrders)).
Proof.
  apply (processRawOrders_invariant now sound).
  intros st' rawOrder _ Hs.
  apply (processOrder_sound (mkRun (service st') (S (clock st')))). exact Hs.
Qed.

Lemma bookOf_wf st pair : sound st -> book_wf (bookOf st pair).
Proof.
  intros [Hwf _]. unfold bookOf.
  destruct (Map_get _ _) as [orderBook|] eqn:Hget.
  - exact (Map_Forall_get _ _ _ _ Hwf Hget).
  - apply book_wf_createOrderBook.
Qed.

(** The trades of the order that comes next in a sound state. *)
Lemma next_trades st order :
  sound st ->
  Forall (fun t => trade_of order (Order.pair order) (Trade.price t) t
                   /\ priceIsCompatible order (Trade.price t) = true)
    (mr_trades (matchOrder now order (bookOf st (Order.pair order))
                  (OrderBookService.matchingEngine (service st)) (clock st))).
Proof.
  intros Hs.
  pose proof (matchOrder_trades now order (bookOf st (Order.pair order))
                (OrderBookService.matchingEngine (service st)) (clock st))
    as Hts.
  rewrite (bookOf_pair st _ (proj2 Hs)) in Hts. apply Hts.
  exact (proj1 (book_wf_opposite _ (Order.side order)
                  (bookOf_wf st (Order.pair order) Hs))).
Qed.

(** A command appends to the trade log only trades that it takes. *)
Lemma processOrder_new_trades st order :
  sound st ->
  exists new,
    OrderBookService.trades (service (processOrder now st order))
    = OrderBookService.trades (service st) ++ new
    /\ Forall (fun t => taker_of t order /\ (0 < Trade.amount t)%Qc) new.
Proof.
  intros Hs.
  destruct (processOrder_trades now st order) as [(Hc & Ht & _) | (Ht & _)].
  - eexists. split; [exact Ht |].
    eapply Forall_impl; [apply (next_trades st order Hs) |].
    intros t [(Hp & Hid & Hacc & _ & Hamt) _].
    apply String.eqb_eq in Hc. repeat split; assumption.
  - exists []. rewrite app_nil_r. split; [exact Ht | constructor].
Qed.

Lemma processRawOrders_new_trades rawOrders st :
  sound st ->
  exists new,
    OrderBookService.trades (service (fst (processRawOrders now st rawOrders)))
    = OrderBookService.trades (service st) ++ new
    /\ Forall (fun t =>
                 (exists order,
                    order ∈ promotedOrders now st rawOrders
                    /\ taker_of t order)
                 /\ (0 < Trade.amount t)%Qc) new.
Proof.
  revert st. induction rawOrders as [|rawOrder rest IH]; intros st Hs; simpl.
  { exists []. rewrite app_nil_r. split; [reflexivity | constructor]. }
  unfold processRawOrder.
  destruct (validateOrder rawOrder) eqn:Hvalid; simpl.
  { exists []. rewrite app_nil_r. split; [reflexivity | constructor]. }
  set (order := createOrder rawOrder (now (clock st))).
  set (st1 := mkRun (service st) (S (clock st))).
  assert (Hs1 : sound st1) by exact Hs.
  destruct (processOrder_new_trades st1 order Hs1) as (new1 & Ht1 & Hnew1).
  destruct (IH _ (processOrder_sound st1 order Hs1)) as (new2 & Ht2 & Hnew2).
  exists (new1 ++ new2). split.
  - rewrite Ht2, Ht1, app_assoc. reflexivity.
  - apply Forall_app. split.
    + eapply Forall_impl; [exact Hnew1 |]. intros t [Htaker Hamt].
      split; [| exact Hamt]. exists order. split; [left | exact Htaker].
    + eapply Forall_impl; [exact Hnew2 |]. intros t [(o & Ho & Htaker) Hamt].
      split; [| exact Hamt]. exists o. split; [right; exact Ho | exact Htaker].
Qed.
End Sound.

(** X6.  Every trade in the log of a run has a positive amount. *)
Theorem trade_amounts_are_positive (now : nat -> Z) (rawOrders : list RawOrder.t) :
  Forall (fun t => (0 < Trade.amount t)%Qc)
    (OrderBookService.trades
       (service (fst (processRawOrders now fresh rawOrders)))).
Proof.
  destruct (processRawOrders_new_trades now rawOrders fresh (sound_fresh))
    as (new & -> & Hnew).
  simpl. eapply Forall_impl; [exact Hnew |]. intros t [_ Hamt]. exact Hamt.
Qed.

(** X7.  Every trade in the log of a run was taken by a CREATE command of
    the batch that passed the validator: the trade carries that command's
    order id and account id as taker and was made on the book of that
    command's pair. *)
Theorem trades_name_their_taker (now : nat -> Z) (rawOrders : list RawOrder.t) :
  Forall (fun t =>
            exists order,
              order ∈ promotedOrders now fresh rawOrders
              /\ Order.type_op order = "CREATE"
              /\ Trade.taker_order_id t = Order.order_id order
              /\ Trade.taker_account_id t = Order.account_id order
              /\ Trade.pair t = Order.pair order)
    (OrderBookService.trades
       (service (fst (processRawOrders now fresh rawOrders)))).
Proof.
  destruct (processRawOrders_new_trades now rawOrders fresh (sound_fresh))
    as (new & -> & Hnew).
  simpl. eapply Forall_impl; [exact Hnew |].
  intros t [(order & Ho & Htaker) _]. exists order. split; assumption.
Qed.

(** X8.  Whatever was processed before, the trades of the order that comes
    next are made within its limit: a BUY never pays more than its limit
    price and a SELL never receives less; an order of any other side makes
    no trade. *)
Theorem trades_respect_the_limit_price (now : nat -> Z)
    (rawOrders : list RawOrder.t) (order : Order.t) :
  let st := fst (processRawOrders now fresh rawOrders) in
  Forall (fun t =>
            (Order.side order = "BUY"
             /\ (Trade.price t <= Order.limit_price order)%Qc)
            \/ (Order.side order = "SELL"
                /\ (Order.limit_price order <= Trade.price t)%Qc))
    (mr_trades (matchOrder now order (bookOf st (Order.pair order))
                  (OrderBookService.matchingEngine (service st)) (clock st))).
Proof.
  cbv zeta. eapply Forall_impl.
  - apply next_trades, processRawOrders_sound, sound_fresh.
  - intros t [_ Hcompat]. unfold priceIsCompatible in Hcompat.
    apply orb_prop in Hcompat as [Hc | Hc]; apply andb_prop in Hc as [Hside Hp];
      apply String.eqb_eq in Hside; [left | right]; (split; [exact Hside |]);
      revert Hp; clear; dec_cases; intros; try discriminate; qc_lra.
Qed.

(** ** Batches *)

Lemma processRawOrders_app now st rawOrders1 rawOrders2 :
  processRawOrders now st (rawOrders1 ++ rawOrders2)
  = match processRawOrders now st rawOrders1 with
    | (st', None) => processRawOrders now st' rawOrders2
    | (st', Some e) => (st', Some e)
    end.
Proof.
  revert st. induction rawOrders1 as [|rawOrder rest IH]; intros st; simpl;
    [reflexivity |].
  destruct (processRawOrder now st rawOrder) as [st' [e|]];
    [reflexivity | apply IH].
Qed.

(** X9.  Processing a batch in two parts, the second from the state the
    first one leaves, is processing the whole batch, unless the first part
    throws: then the whole batch stops in the same state with the same
    error. *)
Theorem batches_compose (now : nat -> Z) (st : Run)
    (rawOrders1 rawOrders2 : list RawOrder.t) :
  processRawOrders now st (rawOrders1 ++ rawOrders2)
  = match processRawOrders now st rawOrders1 with
    | (st', None) => processRawOrders now st' rawOrders2
    | (st', Some e) => (st', Some e)
    end.
Proof. apply processRawOrders_app. Qed.

(** X10.  The trade log only grows: the log after a batch is a prefix of
    the log after any longer batch. *)
Theorem trade_log_is_append_only (now : nat -> Z)
    (rawOrders more : list RawOrder.t) :
  OrderBookService.trades
    (service (fst (processRawOrders now fresh rawOrders)))
  `prefix_of`
  OrderBookService.trades
    (service (fst (processRawOrders now fresh (rawOrders ++ more)))).
Proof.
  rewrite processRawOrders_app.
  pose proof (processRawOrders_sound now rawOrders fresh (sound_fresh)) as Hs.
  destruct (processRawOrders now fresh rawOrders) as [st' [e|]]; simpl in *;
    [reflexivity |].
  destruct (processRawOrders_new_trades now more st' Hs) as (new & -> & _).
  apply prefix_app_r. reflexivity.
Qed.

(** ** The taker of a match *)

Section Taker.
Variable now : nat -> Z.




End Taker.



(** ** Time priority within a level *)

Lemma drop_cons_inv {A : Type} (l : list A) k x rest :
  drop k l = x :: rest -> l !! k = Some x /\ drop (S k) l = rest.
Proof.
  intros Hdrop.
  assert (Hx : l !! k = Some x).
  { pose proof (lookup_drop l k 0) as Hl. rewrite Hdrop in Hl.
    rewrite Nat.add_0_r in Hl. symmetry. exact Hl. }
  split; [exact Hx |].
  rewrite (drop_S l x k Hx) in Hdrop. congruence.
Qed.

Section Fifo.
Variable now : nat -> Z.

Lemma fill_body_fifo pair orders0 s :
  fill_cond s = true -> fifo orders0 s -> fifo orders0 (fill_body now pair s).
Proof.
  unfold fill_cond, fifo, fill_body.
  destruct s as [o [p [|m rest] tv] ts e c];
    cbn [fs_level fs_order fs_trades PriceLevel.orders]; [auto |].
  intros Hc [Hmakers Hqueue]. apply andb_prop in Hc as [Hgt _].
  destruct Hqueue as [Hqueue | [Hgt' _]]; [| congruence].
  symmetry in Hqueue. apply drop_cons_inv in Hqueue as [Hm Hrest].
  rewrite length_app, Nat.add_1_r. split.
  - rewrite map_app, (take_S_r _ _ _ Hm), map_app, Hmakers. reflexivity.
  - destruct (DecimalValue.isZero _ || DecimalValue.lt _ _) eqn:Hsh.
    + left. symmetry. exact Hrest.
    + right. split.
      * apply orb_false_elim in Hsh as [Hz Hlt]. simpl in *.
        revert Hgt Hz Hlt. clear. dec_cases; intros; try reflexivity;
          try discriminate; exfalso; qc_lra.
      * eexists _, m, _. split; [reflexivity |]. split; [exact Hm |].
        rewrite Hrest. reflexivity.
Qed.

Lemma matchAtPriceLevel_fifo order priceLevel pair engine clock :
  fifo (PriceLevel.orders priceLevel)
       (matchAtPriceLevel now order priceLevel pair engine clock).
Proof.
  unfold matchAtPriceLevel, matchAtPriceLevel_loop.
  apply (while_invariant _ _ _ _ (fifo (PriceLevel.orders priceLevel))).
  - intros s. apply fill_body_fifo.
  - split; [reflexivity | left; reflexivity].
Qed.
End Fifo.

(** X12.  [matchAtPriceLevel] fills a level in queue order: the makers of
    its trades are the first entries of the queue, each once and in the
    order of the queue, and the level is left with the entries behind them
    untouched, preceded by the last maker when that one was filled only in
    part. *)
Theorem level_is_filled_in_queue_order (now : nat -> Z) (order : Order.t)
    (priceLevel : PriceLevel.t) (pair : TradingPair)
    (engine : MatchingEngine.t) (clock : nat) :
  let r := matchAtPriceLevel now order priceLevel pair engine clock in
  let n := length (fs_trades r) in
  map Trade.maker_order_id (fs_trades r)
  = map OrderBookEntry.order_id (take n (PriceLevel.orders priceLevel))
  /\ (PriceLevel.orders (fs_level r) = drop n (PriceLevel.orders priceLevel)
      \/ exists k m a,
           n = S k
           /\ PriceLevel.orders priceLevel !! k = Some m
           /\ PriceLevel.orders (fs_level r)
              = OrderBookEntry.set_amount m a
                :: drop n (PriceLevel.orders priceLevel)).
Proof.
  intros r n.
  destruct (matchAtPriceLevel_fifo now order priceLevel pair engine clock)
    as [Hmakers Hqueue].
  split; [exact Hmakers |].
  destruct Hqueue as [Hqueue | (_ & k & m & a & Hn & Hm & Hqueue)];
    [left; exact Hqueue | right].
  exists k, m, a. subst r n. rewrite Hn. auto.
Qed.

(** ** Price priority *)

Section Priority.
Variable now : nat -> Z.
Variable R : relation Qc.
Hypothesis R_refl : forall x, R x x.

Lemma constant_sorted (p : Qc) l :
  Forall (fun x => x = p) l -> StronglySorted R l.
Proof.
  induction 1 as [|x l -> Hl IH]; constructor; [exact IH |].
  eapply Forall_impl; [exact Hl |]. intros y ->. apply R_refl.
Qed.

(** The walk of [matchOrder] over sorted prices: the trades made so far
    are sorted by price, and none of them is behind a price still to
    come. *)
Lemma match_body_priority order pair s :
  map_Forall level_wf (ms_priceLevels s)
  /\ StronglySorted R (ms_pricesToMatch s)
  /\ StronglySorted R (map Trade.price (ms_trades s))
  /\ (forall x q, x ∈ map Trade.price (ms_trades s) ->
                  q ∈ ms_pricesToMatch s -> R x q) ->
  let s' := match_body now order pair s in
  map_Forall level_wf (ms_priceLevels s')
  /\ StronglySorted R (ms_pricesToMatch s')
  /\ StronglySorted R (map Trade.price (ms_trades s'))
  /\ (forall x q, x ∈ map Trade.price (ms_trades s') ->
                  q ∈ ms_pricesToMatch s' -> R x q).
Proof.
  intros (Hwf & Hprices & Hsorted & Hcross). cbv zeta. unfold match_body.
  destruct s as [o lv [|p ps] ts e c b]; simpl in *; [auto |].
  destruct (negb _); simpl; [auto |].
  inversion Hprices as [|p' ps' Hps Hp]; subst.
  assert (Hcross_tail :
            forall x q, x ∈ map Trade.price ts -> q ∈ ps -> R x q).
  { intros x q Hx Hq. apply Hcross; [exact Hx | right; exact Hq]. }
  destruct (lv !! _) as [lvl|] eqn:Hlvl; simpl; [| auto].
  case_bool_decide; simpl; [auto |].
  pose proof (matchAtPriceLevel_trades now o lvl pair e c _
                (proj1 (Hwf _ _ Hlvl))) as (_ & _ & Hok' & Hts').
  set (r := matchAtPriceLevel now o lvl pair e c) in *.
  assert (Hnew : Forall (fun x => x = p) (map Trade.price (fs_trades r))).
  { apply Forall_fmap. eapply Forall_impl; [exact Hts' |].
    intros t (_ & _ & _ & Hprice & _). exact Hprice. }
  assert (Hsorted' : StronglySorted R (map Trade.price (ts ++ fs_trades r))).
  { rewrite map_app. apply StronglySorted_app_2;
      [| exact Hsorted | apply (constant_sorted p), Hnew].
    intros x1 x2 Hx1 Hx2. rewrite Forall_forall in Hnew.
    rewrite (Hnew _ Hx2). apply Hcross; [exact Hx1 | left]. }
  assert (Hcross' :
            forall x q, x ∈ map Trade.price (ts ++ fs_trades r) ->
                        q ∈ p :: ps -> R x q).
  { intros x q Hx Hq. rewrite map_app, elem_of_app in Hx.
    destruct Hx as [Hx | Hx]; [apply Hcross; assumption |].
    rewrite Forall_forall in Hnew. rewrite (Hnew _ Hx).
    apply elem_of_cons in Hq as [-> | Hq]; [apply R_refl |].
    rewrite Forall_forall in Hp. apply Hp, Hq. }
  case_bool_decide as Hlen; simpl.
  - split; [apply map_Forall_delete, Hwf |].
    split; [exact Hps |]. split; [exact Hsorted' |].
    intros x q Hx Hq. apply Hcross'; [exact Hx | right; exact Hq].
  - split; [| auto].
    apply map_Forall_insert_2; [| exact Hwf]. split; [exact Hok' |].
    intros Hnil. apply Hlen. rewrite Hnil. reflexivity.
Qed.

Lemma matchOrder_priority order orderBook engine clock :
  side_wf R (oppositeSideOf orderBook (Order.side order)) ->
  StronglySorted R
    (map Trade.price (mr_trades (matchOrder now order orderBook engine clock))).
Proof.
  intros (Hwf & Hsorted & _). unfold matchOrder.
  case_bool_decide; simpl; [constructor |].
  unfold matchOrder_loop.
  refine (proj1 (proj2 (proj2
    (while_invariant _ _ _
       (match_body_decreases now order (OrderBook.pair orderBook))
       (fun s =>
          map_Forall level_wf (ms_priceLevels s)
          /\ StronglySorted R (ms_pricesToMatch s)
          /\ StronglySorted R (map Trade.price (ms_trades s))
          /\ (forall x q, x ∈ map Trade.price (ms_trades s) ->
                          q ∈ ms_pricesToMatch s -> R x q))
       (fun s _ => match_body_priority order (OrderBook.pair orderBook) s)
       _ _)))).
  simpl. split; [exact Hwf | split; [exact Hsorted | split; [constructor |]]].
  intros x q Hx. apply elem_of_nil in Hx. contradiction.
Qed.
End Priority.

(** X13.  Whatever was processed before, the trades of the order that comes
    next are made best price first: at ascending prices for a BUY, which
    takes the asks, and at descending prices for a SELL, which takes the
    bids. *)
Theorem trades_follow_price_priority (now : nat -> Z)
    (rawOrders : list RawOrder.t) (order : Order.t) :
  let st := fst (processRawOrders now fresh rawOrders) in
  let prices :=
    map Trade.price
      (mr_trades (matchOrder now order (bookOf st (Order.pair order))
                    (OrderBookService.matchingEngine (service st))
                    (clock st))) in
  if String.eqb (Order.side order) "BUY"
  then StronglySorted (fun p q => (p <= q)%Qc) prices
  else StronglySorted (fun p q => (q <= p)%Qc) prices.
Proof.
  cbv zeta.
  pose proof (book_wf_opposite _ (Order.side order)
                (bookOf_wf
                   (fst (processRawOrders now fresh rawOrders))
                   (Order.pair order)
                   (processRawOrders_sound now rawOrders fresh sound_fresh)))
    as Hside.
  unfold oppositeOrder in Hside.
  destruct (String.eqb (Order.side order) "BUY").
  - apply (matchOrder_priority now Qcle); [apply Qcle_refl | exact Hside].
  - apply (matchOrder_priority now (flip Qcle)); [| exact Hside].
    intros x. apply Qcle_refl.
Qed.

(** ** The validator *)



(** X15.  [validateOrders] throws the error of the first command that
    [validateOrder] rejects, and returns when there is none. *)
Theorem validateOrders_first_error (orders : list RawOrder.t) :
  match validateOrders orders with
  | None => Forall (fun order => validateOrder order = None) orders
  | Some e =>
      exists before order after,
        orders = before ++ order :: after
        /\ Forall (fun order => validateOrder order = None) before
        /\ validateOrder order = Some e
  end.
Proof.
  induction orders as [|order rest IH]; simpl; [constructor |].
  destruct (validateOrder order) as [e|] eqn:Hvalid.
  - exists [], order, rest. repeat split; [constructor | exact Hvalid].
  - destruct (validateOrders rest) as [e|].
    + destruct IH as (before & o & after & -> & Hbefore & Ho).
      exists (order :: before), o, after.
      repeat split; [constructor; assumption | exact Ho].
    + constructor; assumption.
Qed.

(** X16.  A batch whose amounts and prices are numerals throws exactly what
    [validateOrders] reports for it: the service stops at the first command
    the validator rejects, with that [ValidationError], and processing the
    commands it accepts does not throw. *)
Theorem batch_throws_the_first_validation_error (now : nat -> Z) (st : Run)
    (rawOrders : list RawOrder.t) :
  snd (processRawOrders now st rawOrders) = validateOrders rawOrders.
Proof.
  revert st. induction rawOrders as [|rawOrder rest IH]; intros st; simpl;
    [reflexivity |].
  unfold processRawOrder. destruct (validateOrder rawOrder); simpl;
    [reflexivity | apply IH].
Qed.

(** ** Best prices *)

Lemma head_sorted (R : relation Qc) l p x :
  StronglySorted R l -> head l = Some p -> x ∈ l -> x = p \/ R p x.
Proof.
  intros Hsorted Hhead Hx. destruct Hsorted as [|y l _ Hy]; [discriminate |].
  simpl in Hhead. injection Hhead as ->.
  apply elem_of_cons in Hx as [-> | Hx]; [left; reflexivity | right].
  rewrite Forall_forall in Hy. apply Hy, Hx.
Qed.



(** ** Orders that do not cross *)

Lemma setOppositeSide_same orderBook side :
  setOppositeSide orderBook side
    (OrderBookSide.mk
       (OrderBookSide.priceLevels (oppositeSideOf orderBook side))
       (OrderBookSide.prices (oppositeSideOf orderBook side)))
  = orderBook.
Proof.
  unfold setOppositeSide, oppositeSideOf.
  destruct orderBook as [pair [bl bp] [al ap]].
  destruct (String.eqb side "BUY"); reflexivity.
Qed.

Lemma bestOppositePrice_head order orderBook :
  bestOppositePrice order orderBook
  = head (OrderBookSide.prices (oppositeSideOf orderBook (Order.side order))).
Proof.
  unfold bestOppositePrice, oppositeSideOf, getBestAskPrice, getBestBidPrice.
  destruct (String.eqb _ "BUY"); reflexivity.
Qed.

(** X18.  An order whose limit does not reach the best price of the opposite
    side, or that finds the opposite side without a price, makes no trade,
    and [matchOrder] leaves the book, the engine and the clock as they
    were. *)
Theorem order_that_does_not_cross_changes_nothing (now : nat -> Z)
    (order : Order.t) (orderBook : OrderBook.t) (engine : MatchingEngine.t)
    (clock : nat) :
  (forall best,
     bestOppositePrice order orderBook = Some best ->
     priceIsCompatible order best = false) ->
  matchOrder now order orderBook engine clock
  = mkResult [] orderBook engine clock order.
Proof.
  rewrite bestOppositePrice_head. intros Hbest. unfold matchOrder.
  case_bool_decide; [reflexivity |].
  destruct (OrderBookSide.prices (oppositeSideOf orderBook (Order.side order)))
    as [|p ps] eqn:Hprices; [done |].
  specialize (Hbest p eq_refl). unfold priceIsCompatible in Hbest.
  set (levels := OrderBookSide.priceLevels _).
  assert (Hbody :
            match_body now order (OrderBook.pair orderBook)
              (mkMatch order levels (p :: ps) [] engine clock false)
            = mkMatch order levels (p :: ps) [] engine clock true).
  { unfold match_body. simpl. rewrite Hbest. reflexivity. }
  unfold matchOrder_loop. rewrite while_unroll.
  destruct (match_cond _).
  - rewrite Hbody, while_unroll. simpl. subst levels.
    rewrite <- Hprices, setOppositeSide_same. reflexivity.
  - simpl. subst levels. rewrite <- Hprices, setOppositeSide_same. reflexivity.
Qed.

Lemma order_that_does_not_cross_changes_nothing_witness :
  let order := createOrder (cmd "CREATE" "2" "2" "SELL" 5 50001) 0 in
  let orderBook :=
    addToOrderBook (createOrder buy10 0) (createOrderBook "BTC/USDC") in
  matchOrder still order orderBook (MatchingEngine.mk 1) 0%nat
  = mkResult [] orderBook (MatchingEngine.mk 1) 0%nat order.
Proof.
  intros order orderBook.
  apply (order_that_does_not_cross_changes_nothing still order orderBook).
  intros best Hbest. vm_compute in Hbest. injection Hbest as <-.
  vm_compute. reflexivity.
Defined.

(** ** The books a command leaves alone *)

Lemma Map_get_set_ne {V : Type} k k' (v : V) m :
  k' <> k -> Map_get k (Map_set k' v m) = Map_get k m.
Proof.
  intros Hne. induction m as [|[k0 v0] m IH]; simpl.
  - destruct (String.eqb_spec k' k); [contradiction | reflexivity].
  - destruct (String.eqb_spec k0 k') as [-> | Hk0]; simpl.
    + destruct (String.eqb_spec k' k); [contradiction | reflexivity].
    + destruct (String.eqb k0 k); [reflexivity | exact IH].
Qed.

Lemma processOrder_other_books now st order pair :
  Order.pair order <> pair ->
  Map_get pair (OrderBookService.orderBooks (service (processOrder now st order)))
  = Map_get pair (OrderBookService.orderBooks (service st)).
Proof.
  intros Hne. unfold processOrder.
  set (books1 := if Map_has _ _ then _ else _).
  assert (Hbooks1 : Map_get pair books1
                    = Map_get pair (OrderBookService.orderBooks (service st))).
  { subst books1. destruct (Map_has _ _); [reflexivity |].
    apply Map_get_set_ne, Hne. }
  destruct (Map_get (Order.pair order) books1) as [orderBook|];
    [| exact Hbooks1].
  destruct (String.eqb _ "CREATE").
  - unfold handleCreateOrder. simpl.
    rewrite Map_get_set_ne by exact Hne. exact Hbooks1.
  - destruct (String.eqb _ "DELETE"); [| exact Hbooks1].
    unfold handleDeleteOrder. destruct (removeFromOrderBook _ _). simpl.
    rewrite Map_get_set_ne by exact Hne. exact Hbooks1.
Qed.

(** X19.  A command touches only the book of its own pair: the book filed
    under any other pair, or its absence, is the same before and after the
    command. *)
Theorem command_leaves_other_pairs_alone (now : nat -> Z) (st : Run)
    (rawOrder : RawOrder.t) (pair : TradingPair) :
  RawOrder.pair rawOrder <> pair ->
  Map_get pair
    (OrderBookService.orderBooks
       (service (fst (processRawOrder now st rawOrder))))
  = Map_get pair (OrderBookService.orderBooks (service st)).
Proof.
  intros Hne. unfold processRawOrder.
  destruct (validateOrder rawOrder); simpl; [reflexivity |].
  apply (processOrder_other_books now (mkRun (service st) (S (clock st)))).
  exact Hne.
Qed.

Lemma command_leaves_other_pairs_alone_witness :
  Map_get "ETH/USDC"
    (OrderBookService.orderBooks
       (service (fst (processRawOrder still
                        (fst (processRawOrder still fresh
                                (RawOrder.mk "CREATE" "9" (dec 1) "9"
                                   "ETH/USDC" (dec 3000) "BUY")))
                        buy10))))
  = Map_get "ETH/USDC"
      (OrderBookService.orderBooks
         (service (fst (processRawOrder still fresh
                          (RawOrder.mk "CREATE" "9" (dec 1) "9"
                             "ETH/USDC" (dec 3000) "BUY"))))).
Proof.
  apply (command_leaves_other_pairs_alone still _ buy10 "ETH/USDC").
  vm_compute. discriminate.
Defined.

(** ** Market statistics *)

Lemma countOrders_serializeSide s : countOrders s = length (serializeSide s).
Proof.
  unfold countOrders, serializeSide.
  set (levels := OrderBookSide.priceLevels s).
  assert (Hacc : forall prices acc,
            foldl (fun count price =>
                     (count
                      + match levels !! DecimalValue.toString price with
                        | Some priceLevel =>
                            length (PriceLevel.orders priceLevel)
                        | None => 0
                        end)%nat)
                  acc prices
            = (acc
               + length
                   (flat_map
                      (fun price =>
                         match levels !! DecimalValue.toString price with
                         | Some priceLevel =>
                             map serializeOrderBookEntry
                                 (PriceLevel.orders priceLevel)
                         | None => []
                         end)
                      prices))%nat).
  { induction prices as [|p prices IH]; intros acc; simpl; [lia |].
    rewrite IH, length_app.
    destruct (levels !! DecimalValue.toString p); simpl;
      rewrite ?length_map; lia. }
  rewrite Hacc. reflexivity.
Qed.

(** X20.  The [bidCount] and [askCount] that [getMarketStatistics] reports
    for a pair are the numbers of bids and asks that
    [getSerializedOrderBooks] writes for it. *)
Theorem statistics_count_the_serialized_entries (svc : OrderBookService.t) :
  map (fun kv => (fst kv,
                  (MarketStatistics.bidCount (snd kv),
                   MarketStatistics.askCount (snd kv))))
      (getMarketStatistics svc)
  = map (fun kv => (fst kv,
                    (length (fst (snd (serializeOrderBook (snd kv)))),
                     length (snd (snd (serializeOrderBook (snd kv)))))))
        (OrderBookService.orderBooks svc).
Proof.
  unfold getMarketStatistics. rewrite map_map. apply map_ext.
  intros [pair orderBook]. simpl. rewrite !countOrders_serializeSide.
  reflexivity.
Qed.

(** ** Readings of the clock *)

Section Readings.
Variable now : nat -> Z.

Lemma matchAtPriceLevel_reads order priceLevel pair engine clock :
  let r := matchAtPriceLevel now order priceLevel pair engine clock in
  fs_clock r = (clock + length (fs_trades r))%nat.
Proof.
  unfold matchAtPriceLevel, matchAtPriceLevel_loop.
  apply (while_invariant _ _ _ _
           (fun s => fs_clock s = (clock + length (fs_trades s))%nat)).
  - intros s _ Hs. unfold fill_body.
    destruct (PriceLevel.orders (fs_level s)); [exact Hs |].
    simpl. rewrite length_app, Hs. simpl. lia.
  - simpl. lia.
Qed.

Lemma matchOrder_reads order orderBook engine clock :
  let r := matchOrder now order orderBook engine clock in
  mr_clock r = (clock + length (mr_trades r))%nat.
Proof.
  unfold matchOrder. case_bool_decide; simpl; [lia |].
  unfold matchOrder_loop.
  apply (while_invariant _ _ _
           (match_body_decreases now order (OrderBook.pair orderBook))
           (fun s => ms_clock s = (clock + length (ms_trades s))%nat));
    [| simpl; lia].
  intros s _ Hs. unfold match_body.
  destruct s as [o lv [|p ps] ts e c b]; simpl in *; [exact Hs |].
  destruct (negb _); simpl; [exact Hs |].
  destruct (lv !! _) as [lvl|]; simpl; [| exact Hs].
  case_bool_decide; simpl; [exact Hs |].
  pose proof (matchAtPriceLevel_reads o lvl (OrderBook.pair orderBook) e c)
    as Hr.
  cbv zeta in Hr.
  case_bool_decide; simpl; rewrite length_app, Hr; lia.
Qed.

Lemma processOrder_reads st order :
  (clock (processOrder now st order)
   + length (OrderBookService.trades (service st))
   = clock st
     + length (OrderBookService.trades (service (processOrder now st order))))%nat.
Proof.
  unfold processOrder.
  destruct (Map_get _ _) as [orderBook|]; simpl; [| lia].
  destruct (String.eqb _ "CREATE").
  - unfold handleCreateOrder. simpl.
    rewrite length_app, matchOrder_reads. lia.
  - destruct (String.eqb _ "DELETE"); simpl; [| lia].
    unfold handleDeleteOrder. destruct (removeFromOrderBook _ _). simpl. lia.
Qed.

Lemma processRawOrders_reads rawOrders st :
  let st' := fst (processRawOrders now st rawOrders) in
  (clock st' + length (OrderBookService.trades (service st))
   = clock st + length (promotedOrders now st rawOrders)
     + length (OrderBookService.trades (service st')))%nat.
Proof.
  revert st. induction rawOrders as [|rawOrder rest IH]; intros st; simpl;
    [lia |].
  unfold processRawOrder.
  destruct (validateOrder rawOrder) eqn:Hvalid; simpl; [lia |].
  set (st1 := processOrder now (mkRun (service st) (S (clock st)))
                (createOrder rawOrder (now (clock st)))).
  pose proof (processOrder_reads (mkRun (service st) (S (clock st)))
                (createOrder rawOrder (now (clock st)))) as Hstep.
  fold st1 in Hstep. simpl in Hstep.
  specialize (IH st1). cbv zeta in IH. lia.
Qed.
End Readings.

(** X21.  A run reads the clock once for every command that passes the
    validator and once for every trade, and at no other point. *)
Theorem clock_is_read_per_command_and_per_trade (now : nat -> Z)
    (rawOrders : list RawOrder.t) :
  let st := fst (processRawOrders now fresh rawOrders) in
  clock st
  = (length (promotedOrders now fresh rawOrders)
     + length (OrderBookService.trades (service st)))%nat.
Proof.
  pose proof (processRawOrders_reads now rawOrders fresh) as H.
  cbv zeta in *. simpl in H. lia.
Qed.

(** ** Resting and cancelling *)








(** ** The serialized book *)



Lemma serialized_level_prices (levels : gmap DecimalValue.t PriceLevel.t) p x :
  map_Forall level_wf levels ->
  x ∈ map (fun y => snd (entryView y))
          match levels !! DecimalValue.toString p with
          | Some priceLevel =>
              map serializeOrderBookEntry (PriceLevel.orders priceLevel)
          | None => []
          end ->
  x = p.
Proof.
  intros Hlv. unfold DecimalValue.toString.
  destruct (levels !! p) as [level|] eqn:Hlevel; simpl.
  - intros Hx. apply list_elem_of_fmap in Hx as (y & -> & Hy).
    apply list_elem_of_fmap in Hy as (e & -> & He).
    destruct (Hlv _ _ Hlevel) as [(_ & Hall & _) _].
    rewrite Forall_forall in Hall. exact (proj1 (Hall _ He)).
  - intros Hx. apply elem_of_nil in Hx. contradiction.
Qed.

Section SerializedOrder.
Variable R : relation Qc.
Hypothesis R_refl : forall x, R x x.

Lemma serializeSide_sorted s :
  side_wf R s ->
  StronglySorted R (map (fun x => snd (entryView x)) (serializeSide s)).
Proof.
  intros (Hlv & Hsorted & _). unfold serializeSide.
  set (levels := OrderBookSide.priceLevels s) in *.
  induction Hsorted as [|p prices Hprices IH Hp]; simpl; [constructor |].
  rewrite map_app. apply StronglySorted_app_2; [| | exact IH].
  - intros x1 x2 Hx1 Hx2.
    apply (serialized_level_prices levels p x1 Hlv) in Hx1 as ->.
    apply list_elem_of_fmap in Hx2 as (x & -> & Hx).
    apply list_elem_of_In, in_flat_map in Hx as (q & Hq & Hx).
    apply list_elem_of_In in Hq, Hx.
    assert (Hx' : snd (entryView x) = q).
    { apply (serialized_level_prices levels q _ Hlv).
      apply list_elem_of_fmap. exists x. split; [reflexivity | exact Hx]. }
    rewrite Hx'. rewrite Forall_forall in Hp. apply Hp, Hq.
  - apply (constant_sorted R R_refl p). apply Forall_forall.
    intros x Hx. apply (serialized_level_prices levels p x Hlv), Hx.
Qed.
End SerializedOrder.

(** X24.  After any run the serialized book lists its entries best price
    first: the bids by descending limit price, the asks by ascending limit
    price. *)
Theorem serialized_book_is_sorted_by_price (now : nat -> Z)
    (rawOrders : list RawOrder.t) :
  Map_Forall
    (fun orderBook =>
       StronglySorted (fun p q => (q <= p)%Qc)
         (map (fun x => snd (entryView x))
              (fst (snd (serializeOrderBook orderBook))))
       /\ StronglySorted (fun p q => (p <= q)%Qc)
            (map (fun x => snd (entryView x))
                 (snd (snd (serializeOrderBook orderBook)))))
    (OrderBookService.orderBooks
       (service (fst (processRawOrders now fresh rawOrders)))).
Proof.
  eapply Map_Forall_impl; [apply processRawOrders_wf |].
  intros orderBook [Hb Ha]. simpl. split.
  - apply (serializeSide_sorted (flip Qcle)); [| exact Hb].
    intros x. apply Qcle_refl.
  - apply (serializeSide_sorted Qcle); [apply Qcle_refl | exact Ha].
Qed.

(** ** The makers of a match *)

Section Makers.
Variable now : nat -> Z.

(** A fill is made with the head of the queue, for no more than the head
    holds; and what stays in the queue holds no more than it did. *)
Lemma fill_body_makers pair orders0 price0 s :
  fill_cond s = true ->
  Forall (fun e' =>
            exists e, e ∈ orders0
                      /\ OrderBookEntry.order_id e = OrderBookEntry.order_id e'
                      /\ OrderBookEntry.account_id e = OrderBookEntry.account_id e'
                      /\ (OrderBookEntry.amount e' <= OrderBookEntry.amount e)%Qc)
         (PriceLevel.orders (fs_level s))
  /\ PriceLevel.price (fs_level s) = price0
  /\ Forall (fun t => Trade.price t = price0 /\ maker_in orders0 t)
            (fs_trades s) ->
  let s' := fill_body now pair s in
  Forall (fun e' =>
            exists e, e ∈ orders0
                      /\ OrderBookEntry.order_id e = OrderBookEntry.order_id e'
                      /\ OrderBookEntry.account_id e = OrderBookEntry.account_id e'
                      /\ (OrderBookEntry.amount e' <= OrderBookEntry.amount e)%Qc)
         (PriceLevel.orders (fs_level s'))
  /\ PriceLevel.price (fs_level s') = price0
  /\ Forall (fun t => Trade.price t = price0 /\ maker_in orders0 t)
            (fs_trades s').
Proof.
  unfold fill_cond, fill_body.
  destruct s as [o [p [|m rest] tv] ts e c];
    cbn [fs_level fs_order fs_trades PriceLevel.orders PriceLevel.price];
    [auto |].
  intros Hc (Hqueue & Hprice & Hts). apply andb_prop in Hc as [Hgt _].
  apply Forall_cons in Hqueue as [(m0 & Hm0 & Hid & Hacc & Hamt) Hrest].
  split; [| split; [exact Hprice |]].
  - destruct (DecimalValue.isZero _ || DecimalValue.lt _ _) eqn:Hsh;
      [exact Hrest |].
    constructor; [| exact Hrest].
    exists m0. repeat split; try assumption. simpl.
    apply orb_false_elim in Hsh as [Hz Hlt]. simpl in Hz, Hlt.
    revert Hgt Hz Hlt. clear - Hamt.
    dec_cases; intros; try discriminate; qc_lra.
  - apply Forall_app. split; [exact Hts |]. repeat constructor; simpl; auto.
    exists m0. repeat split; try assumption. simpl.
    clear - Hamt. dec_cases; qc_lra.
Qed.

Lemma matchAtPriceLevel_makers order priceLevel pair engine clock :
  Forall (fun t => Trade.price t = PriceLevel.price priceLevel
                   /\ maker_in (PriceLevel.orders priceLevel) t)
         (fs_trades (matchAtPriceLevel now order priceLevel pair engine clock)).
Proof.
  unfold matchAtPriceLevel, matchAtPriceLevel_loop.
  refine (proj2 (proj2
    (while_invariant _ _ _ (fill_body_decreases now pair)
       (fun s =>
          Forall (fun e' =>
                    exists e,
                      e ∈ PriceLevel.orders priceLevel
                      /\ OrderBookEntry.order_id e = OrderBookEntry.order_id e'
                      /\ OrderBookEntry.account_id e
                         = OrderBookEntry.account_id e'
                      /\ (OrderBookEntry.amount e' <= OrderBookEntry.amount e)%Qc)
                 (PriceLevel.orders (fs_level s))
          /\ PriceLevel.price (fs_level s) = PriceLevel.price priceLevel
          /\ Forall (fun t => Trade.price t = PriceLevel.price priceLevel
                              /\ maker_in (PriceLevel.orders priceLevel) t)
                    (fs_trades s))
       (fun s Hc => fill_body_makers pair _ _ s Hc) _ _))).
  simpl. split; [| split; [reflexivity | constructor]].
  apply Forall_forall. intros e He. exists e.
  repeat split; auto; apply Qcle_refl.
Qed.

(** While the taker is not used up, the levels [matchOrder] works on are
    levels of the book it was given. *)
Lemma match_body_makers order pair levels0 s :
  map_Forall (fun key level => PriceLevel.price level = key) levels0 ->
  match_cond s = true ->
  (DecimalValue.gt (Order.amount (ms_remainingOrder s)) DecimalValue.ZERO = true ->
   forall key level, ms_priceLevels s !! key = Some level ->
                     levels0 !! key = Some level)
  /\ Forall (made_with levels0) (ms_trades s) ->
  let s' := match_body now order pair s in
  (DecimalValue.gt (Order.amount (ms_remainingOrder s')) DecimalValue.ZERO = true ->
   forall key level, ms_priceLevels s' !! key = Some level ->
                     levels0 !! key = Some level)
  /\ Forall (made_with levels0) (ms_trades s').
Proof.
  intros Hkeyed Hc [Hsub Hts]. cbv zeta. revert Hc.
  unfold match_cond, match_body.
  destruct s as [o lv [|p ps] ts e c b]; simpl in *; [auto |].
  intros Hc. apply andb_prop in Hc as [_ Hc]. apply andb_prop in Hc as [Hgt _].
  specialize (Hsub Hgt).
  destruct (negb _); simpl; [auto |].
  destruct (lv !! _) as [lvl|] eqn:Hlvl; simpl; [| auto].
  case_bool_decide; simpl; [auto |].
  pose proof (Hsub _ _ Hlvl) as Hlvl0.
  assert (Hnew : Forall (made_with levels0)
                        (ts ++ fs_trades (matchAtPriceLevel now o lvl pair e c))).
  { apply Forall_app. split; [exact Hts |].
    eapply Forall_impl; [apply matchAtPriceLevel_makers |].
    intros t [Hprice Hmaker]. exists lvl. split; [| exact Hmaker].
    rewrite Hprice, (Hkeyed _ _ Hlvl0). exact Hlvl0. }
  case_bool_decide as Hlen; simpl; (split; [| exact Hnew]).
  - intros _ key level Hkey. apply lookup_delete_Some in Hkey as [_ Hkey].
    apply Hsub, Hkey.
  - intros Hgt'. exfalso.
    pose proof (matchAtPriceLevel_exit now o lvl pair e c) as Hex.
    unfold fill_cond in Hex. rewrite Hgt' in Hex. simpl in Hex.
    apply bool_decide_eq_false in Hex. lia.
Qed.

Lemma matchOrder_makers order orderBook engine clock :
  map_Forall (fun key level => PriceLevel.price level = key)
    (OrderBookSide.priceLevels (oppositeSideOf orderBook (Order.side order))) ->
  Forall (made_with
            (OrderBookSide.priceLevels
               (oppositeSideOf orderBook (Order.side order))))
         (mr_trades (matchOrder now order orderBook engine clock)).
Proof.
  intros Hkeyed. unfold matchOrder. case_bool_decide; simpl; [constructor |].
  unfold matchOrder_loop.
  refine (proj2
    (while_invariant _ _ _
       (match_body_decreases now order (OrderBook.pair orderBook))
       (fun s =>
          (DecimalValue.gt (Order.amount (ms_remainingOrder s))
                           DecimalValue.ZERO = true ->
           forall key level,
             ms_priceLevels s !! key = Some level ->
             OrderBookSide.priceLevels
               (oppositeSideOf orderBook (Order.side order)) !! key
             = Some level)
          /\ Forall (made_with
                       (OrderBookSide.priceLevels
                          (oppositeSideOf orderBook (Order.side order))))
                    (ms_trades s))
       (fun s Hc =>
          match_body_makers order (OrderBook.pair orderBook) _ s Hkeyed Hc)
       _ _)).
  simpl. split; [auto | constructor].
Qed.
End Makers.

(** X25.  Whatever was processed before, every trade of the order that comes
    next is made with an entry that rests on the opposite side of the book
    at the trade's price: the trade names that entry's order and account as
    maker and is for no more than the entry's amount. *)
Theorem trades_are_made_with_resting_entries (now : nat -> Z)
    (rawOrders : list RawOrder.t) (order : Order.t) :
  let st := fst (processRawOrders now fresh rawOrders) in
  let orderBook := bookOf st (Order.pair order) in
  Forall (fun t =>
            exists level e,
              OrderBookSide.priceLevels
                (oppositeSideOf orderBook (Order.side order))
                !! Trade.price t = Some level
              /\ e ∈ PriceLevel.orders level
              /\ OrderBookEntry.order_id e = Trade.maker_order_id t
              /\ OrderBookEntry.account_id e = Trade.maker_account_id t
              /\ (Trade.amount t <= OrderBookEntry.amount e)%Qc)
    (mr_trades (matchOrder now order orderBook
                  (OrderBookService.matchingEngine (service st)) (clock st))).
Proof.
  cbv zeta. eapply Forall_impl.
  - apply matchOrder_makers.
    destruct (book_wf_opposite _ (Order.side order)
                (bookOf_wf
                   (fst (processRawOrders now fresh rawOrders))
                   (Order.pair order)
                   (processRawOrders_sound now rawOrders fresh sound_fresh)))
      as (Hlv & _ & _).
    intros key level Hlevel. exact (proj1 (proj1 (Hlv _ _ Hlevel))).
  - intros t (level & Hlevel & e & He). exists level, e. auto.
Qed.

(** ** Matching is exhaustive *)

Lemma oppositeSideOf_set orderBook side s :
  oppositeSideOf (setOppositeSide orderBook side s) side = s.
Proof.
  unfold oppositeSideOf, setOppositeSide.
  destruct (String.eqb side "BUY"); reflexivity.
Qed.

(** Past a price the order cannot trade at, it cannot trade at any price
    further down the opposite side. *)
Lemma incompatible_further order p q :
  oppositeOrder (Order.side order) p q ->
  priceIsCompatible order p = false -> priceIsCompatible order q = false.
Proof.
  unfold oppositeOrder, priceIsCompatible, flip.
  destruct (String.eqb (Order.side order) "BUY");
    destruct (String.eqb (Order.side order) "SELL"); simpl;
    rewrite ?orb_false_r; try reflexivity.
  all: intros HR; dec_cases; intros; try reflexivity; try discriminate;
    exfalso; qc_lra.
Qed.

Section Exhaustive.
Variable now : nat -> Z.

Lemma match_body_exhaustive order pair s :
  match_cond s = true ->
  map_Forall level_wf (ms_priceLevels s)
  /\ (forall key, is_Some (ms_priceLevels s !! key) ->
                  key ∈ ms_pricesToMatch s)
  /\ StronglySorted (oppositeOrder (Order.side order)) (ms_pricesToMatch s)
  /\ (ms_break s = true ->
      exists p, head (ms_pricesToMatch s) = Some p
                /\ priceIsCompatible order p = false) ->
  let s' := match_body now order pair s in
  map_Forall level_wf (ms_priceLevels s')
  /\ (forall key, is_Some (ms_priceLevels s' !! key) ->
                  key ∈ ms_pricesToMatch s')
  /\ StronglySorted (oppositeOrder (Order.side order)) (ms_pricesToMatch s')
  /\ (ms_break s' = true ->
      exists p, head (ms_pricesToMatch s') = Some p
                /\ priceIsCompatible order p = false).
Proof.
  intros Hc (Hwf & Hkeys & Hsorted & _). cbv zeta. revert Hc.
  unfold match_cond, match_body.
  destruct s as [o lv [|p ps] ts e c b]; simpl in *;
    [rewrite !andb_false_r; discriminate |].
  intros _. fold (priceIsCompatible order p).
  destruct (priceIsCompatible order p) eqn:Hcompat; simpl.
  2: { split; [exact Hwf | split; [exact Hkeys | split; [exact Hsorted |]]].
       intros _. exists p. auto. }
  inversion Hsorted as [|p' ps' Hps Hp]; subst.
  destruct (lv !! _) as [lvl|] eqn:Hlvl; simpl.
  2: { split; [exact Hwf | split; [| split; [exact Hps | discriminate]]].
       intros key Hkey. pose proof (Hkeys key Hkey) as Hin.
       apply elem_of_cons in Hin as [-> | Hin]; [| exact Hin].
       unfold DecimalValue.toString in Hlvl. rewrite Hlvl in Hkey.
       destruct Hkey as [? Hkey]. discriminate. }
  destruct (Hwf _ _ Hlvl) as [Hok Hne].
  case_bool_decide as Hempty; simpl.
  { exfalso. apply Hne. destruct (PriceLevel.orders lvl); [done | discriminate]. }
  case_bool_decide as Hlen; simpl.
  - split; [apply map_Forall_delete, Hwf |].
    split; [| split; [exact Hps | discriminate]].
    intros key [level Hkey]. apply lookup_delete_Some in Hkey as [Hne' Hkey].
    assert (Hin : key ∈ p :: ps) by (apply Hkeys; eauto).
    apply elem_of_cons in Hin as [-> | Hin]; [| exact Hin].
    exfalso. apply Hne'. reflexivity.
  - split; [| split; [| split; [exact Hsorted | discriminate]]].
    + apply map_Forall_insert_2; [| exact Hwf]. split.
      * apply matchAtPriceLevel_level_ok, Hok.
      * intros Hnil. apply Hlen. rewrite Hnil. reflexivity.
    + intros key Hkey. apply lookup_insert_is_Some' in Hkey as [<- | Hkey];
        [left | apply Hkeys, Hkey].
Qed.

Lemma matchOrder_exhaustive order orderBook engine clock :
  side_wf (oppositeOrder (Order.side order))
          (oppositeSideOf orderBook (Order.side order)) ->
  let r := matchOrder now order orderBook engine clock in
  DecimalValue.gt (Order.amount (mr_remainingOrder r)) DecimalValue.ZERO = false
  \/ forall key,
       is_Some (OrderBookSide.priceLevels
                  (oppositeSideOf (mr_orderBook r) (Order.side order)) !! key) ->
       priceIsCompatible order key = false.
Proof.
  intros (Hwf & Hsorted & Hkeys). cbv zeta. unfold matchOrder.
  case_bool_decide as Hnone; simpl.
  { right. intros key Hkey. apply Hkeys in Hkey.
    destruct (OrderBookSide.prices _); [| discriminate].
    apply elem_of_nil in Hkey. contradiction. }
  rewrite oppositeSideOf_set. simpl. unfold matchOrder_loop.
  set (s0 := mkMatch _ _ _ _ _ _ _).
  pose proof (while_exit match_cond
                (match_body now order (OrderBook.pair orderBook))
                match_measure
                (match_body_decreases now order (OrderBook.pair orderBook)) s0)
    as Hexit.
  pose proof (while_invariant _ _ _
                (match_body_decreases now order (OrderBook.pair orderBook))
                (fun s =>
                   map_Forall level_wf (ms_priceLevels s)
                   /\ (forall key, is_Some (ms_priceLevels s !! key) ->
                                   key ∈ ms_pricesToMatch s)
                   /\ StronglySorted (oppositeOrder (Order.side order))
                                     (ms_pricesToMatch s)
                   /\ (ms_break s = true ->
                       exists p, head (ms_pricesToMatch s) = Some p
                                 /\ priceIsCompatible order p = false))
                (fun s Hc =>
                   match_body_exhaustive order (OrderBook.pair orderBook) s Hc)
                s0) as Hinv.
  destruct Hinv as (_ & Hkeys' & Hsorted' & Hbreak).
  { subst s0. simpl.
    split; [exact Hwf | split; [exact Hkeys | split; [exact Hsorted |]]].
    discriminate. }
  set (s := while _ _ _ _ s0) in *.
  unfold match_cond in Hexit.
  destruct (ms_break s) eqn:Hb; simpl in Hexit.
  - right. intros key Hkey. apply Hkeys' in Hkey.
    destruct (Hbreak eq_refl) as (p & Hhead & Hcompat).
    destruct (head_sorted _ _ _ _ Hsorted' Hhead Hkey) as [-> | HR];
      [exact Hcompat |].
    exact (incompatible_further order p key HR Hcompat).
  - apply andb_false_iff in Hexit as [Hgt | Hlen]; [left; exact Hgt | right].
    intros key Hkey. apply Hkeys' in Hkey.
    apply bool_decide_eq_false in Hlen.
    destruct (ms_pricesToMatch s); [| simpl in Hlen; lia].
    apply elem_of_nil in Hkey. contradiction.
Qed.
End Exhaustive.

(** X26.  Whatever was processed before, [matchOrder] does not stop early on
    the order that comes next: when it returns, either its working copy of
    the order is used up, or no level left on the opposite side has a price
    the order could trade at. *)
Theorem matching_is_exhaustive (now : nat -> Z) (rawOrders : list RawOrder.t)
    (order : Order.t) :
  let st := fst (processRawOrders now fresh rawOrders) in
  let r :=
    matchOrder now order (bookOf st (Order.pair order))
               (OrderBookService.matchingEngine (service st)) (clock st) in
  (Order.amount (mr_remainingOrder r) <= 0)%Qc
  \/ forall key,
       is_Some (OrderBookSide.priceLevels
                  (oppositeSideOf (mr_orderBook r) (Order.side order)) !! key) ->
       priceIsCompatible order key = false.
Proof.
  cbv zeta.
  destruct (matchOrder_exhaustive now order
              (bookOf (fst (processRawOrders now fresh rawOrders))
                      (Order.pair order))
              (OrderBookService.matchingEngine
                 (service (fst (processRawOrders now fresh rawOrders))))
              (clock (fst (processRawOrders now fresh rawOrders))))
    as [Hgt | Hnone].
  - apply book_wf_opposite, bookOf_wf, processRawOrders_sound, sound_fresh.
  - left. revert Hgt. clear. dec_cases; intros; try discriminate; qc_lra.
  - right. exact Hnone.
Qed.

(** ** Cancellations *)

(** X27.  [removeFromOrderBook] reads only the side, the limit price and the
    order id of the command: two commands that agree on these three remove
    the same entry from the same book, whatever their accounts, amounts,
    pairs and timestamps.  In particular a cancellation is not tied to the
    account that placed the order. *)
Theorem cancel_reads_side_price_and_id (order order' : Order.t)
    (orderBook : OrderBook.t) :
  Order.side order = Order.side order' ->
  Order.limit_price order = Order.limit_price order' ->
  Order.order_id order = Order.order_id order' ->
  removeFromOrderBook order orderBook = removeFromOrderBook order' orderBook.
Proof.
  intros Hside Hprice Hid. unfold removeFromOrderBook.
  rewrite Hside, Hprice, Hid. reflexivity.
Qed.

Lemma cancel_reads_side_price_and_id_witness :
  let orderBook :=
    addToOrderBook (createOrder buy10 0) (createOrderBook "BTC/USDC") in
  removeFromOrderBook
    (Order.mk "DELETE" "1" (dec 10) "1" "BTC/USDC" (dec 50000) "BUY" 0)
    orderBook
  = removeFromOrderBook
      (Order.mk "DELETE" "someone else" (dec 3) "1" "ETH/USDC" (dec 50000)
                "BUY" 7)
      orderBook.
Proof.
  intros orderBook.
  apply (cancel_reads_side_price_and_id _ _ orderBook); reflexivity.
Defined.



